(** * md2roff: a markdown to roff converter, embedded and verified

    The development follows [src/md2roff.c], function by function:
    [sqzdup], [println], [roff], [flushln] and [md2roff], whose main loop
    is the function [step] iterated by [run].

    Text is a list of characters; a [const char *] is the list of the
    characters before the terminating NUL.  [stdout] and [stderr] are the
    lists of the characters written so far.  The position [p] in the
    source is a zipper: the characters before it, which [*(p-1)] reads,
    and those from it on.  The list stack is the pair of arrays of the
    source with their top pointer; the clock is an argument of [md2roff].

    Behaviour that the C standard leaves undefined is the outcome
    [Undefined]: a read past the terminator of the source, a write past an
    array, past the 64 KiB of [dest] or past [num], a value that [atoi]
    cannot represent and the overflow of a counter.  [malloc] is taken to
    succeed, and the characters above 127 are neither white space, digits
    nor letters, as in the C locale. *)

From Stdlib Require Import Ascii String List ZArith Lia Bool Arith DecimalString.
Import ListNotations.
Local Open Scope string_scope.
Local Open Scope list_scope.

(** ** Characters and C strings *)

Definition text := list ascii.

Definition lit (s : string) : text := list_ascii_of_string s.

Definition NUL : ascii := "000"%char.
Definition BEL : ascii := "007"%char.
Definition BS  : ascii := "008"%char.
Definition TAB : ascii := "009"%char.
Definition LF  : ascii := "010"%char.
Definition FF  : ascii := "012"%char.
Definition CR  : ascii := "013"%char.
Definition ESC : ascii := "027"%char.
Definition SP  : ascii := " "%char.
Definition DQ  : ascii := "034"%char.

Definition code (c : ascii) : N := N_of_ascii c.

Definition in_range (lo hi : N) (c : ascii) : bool :=
  (lo <=? code c)%N && (code c <=? hi)%N.

(** <ctype.h> in the "C" locale. *)
Definition isspace (c : ascii) : bool :=
  Ascii.eqb c SP || in_range 9 13 c.

Definition isdigit (c : ascii) : bool := in_range 48 57 c.

Definition isalnum (c : ascii) : bool :=
  isdigit c || in_range 65 90 c || in_range 97 122 c.

(** The characters of a C string: everything before the first NUL. *)
Fixpoint cstr (s : text) : text :=
  match s with
  | [] => []
  | c :: r => if Ascii.eqb c NUL then [] else c :: cstr r
  end.

(** [*p], which is NUL at the end of the string. *)
Definition peek (s : text) : ascii := hd NUL s.

(** [while ( isspace( *p ) ) p ++;] *)
Fixpoint skip_space (s : text) : text :=
  match s with
  | c :: r => if isspace c then skip_space r else s
  | [] => []
  end.

(** [puts(s)] writes [s] and a newline. *)
Definition puts (s : text) : text := s ++ [LF].

(** ** sqzdup *)

Module Squeeze.

(** The main loop of [sqzdup], from the position [p].  [prev] is
    [*(p - 1)], and [None] while [p == source]; [lc] is the flag of the
    source; the result is what the loop writes through [d]. *)
Fixpoint sqz_loop (prev : option ascii) (lc : bool) (s : text) : text :=
  match s with
  | [] => []
  | c :: r =>
      if isspace c then
        if lc then sqz_loop (Some c) true r
        else
          match prev with
          | Some b =>
              if isalnum b then SP :: sqz_loop (Some c) true r
              else if isalnum (peek (skip_space s))
                   then SP :: sqz_loop (Some c) true r
                   else sqz_loop (Some c) true r
          | None => sqz_loop (Some c) true r
          end
      else c :: sqz_loop (Some c) false r
  end.

(** The leading [while ( isspace( *p ) ) p ++;], with [*(p - 1)]. *)
Fixpoint skip_lead (prev : option ascii) (s : text) : option ascii * text :=
  match s with
  | c :: r => if isspace c then skip_lead (Some c) r else (prev, s)
  | [] => (prev, [])
  end.

(** [if ( d > rp ) if ( isspace( *(d - 1) ) ) *(d - 1) = '\0';] *)
Definition chop (t : text) : text :=
  match rev t with
  | c :: u => if isspace c then rev u else t
  | [] => t
  end.

Definition sqzdup (source : text) : text :=
  let '(prev, s) := skip_lead None (cstr source) in
  chop (sqz_loop prev false s).

(** The shape of a squeezed text, read from left to right with the
    character [prev] before it: no NUL; every white space is one blank that
    follows a character other than white space and has an alphanumeric
    character on one side at least; no white space follows a blank. *)
Fixpoint nf (prev : option ascii) (s : text) : bool :=
  match s with
  | [] => true
  | c :: r =>
      if isspace c then
        Ascii.eqb c SP
        && match prev with
           | Some a => negb (isspace a) && (isalnum a || isalnum (peek r))
           | None => false
           end
        && negb (isspace (peek r))
        && nf (Some c) r
      else negb (Ascii.eqb c NUL) && nf (Some c) r
  end.

End Squeeze.

(** ** String helpers of <string.h> and <stdio.h> *)

Fixpoint text_eqb (a b : text) : bool :=
  match a, b with
  | [], [] => true
  | x :: a', y :: b' => Ascii.eqb x y && text_eqb a' b'
  | _, _ => false
  end.

(** [strncmp(s, pre, strlen(pre)) == 0] for a literal [pre]. *)
Fixpoint prefixb (pre s : text) : bool :=
  match pre, s with
  | [], _ => true
  | x :: pre', y :: s' => Ascii.eqb x y && prefixb pre' s'
  | _ :: _, [] => false
  end.

(** [strchr(s, c)] for [c] other than NUL: the characters before the
    first [c] and those after it, [None] for a NULL result. *)
Fixpoint split_at (c : ascii) (s : text) : option (text * text) :=
  match s with
  | [] => None
  | x :: r =>
      if Ascii.eqb x c then Some ([], r)
      else match split_at c r with
           | Some (a, b) => Some (x :: a, b)
           | None => None
           end
  end.

(** [strrchr(s, c)]: the split at the last [c]. *)
Fixpoint split_last (c : ascii) (s : text) : option (text * text) :=
  match s with
  | [] => None
  | x :: r =>
      match split_last c r with
      | Some (a, b) => Some (x :: a, b)
      | None => if Ascii.eqb x c then Some ([], r) else None
      end
  end.

Definition mem_char (c : ascii) (s : text) : bool :=
  existsb (Ascii.eqb c) s.

(** [println]: the line written, newline included, and the position
    after it. *)
Fixpoint println (src : text) : text * text :=
  match src with
  | [] => ([], [])
  | c :: r =>
      if Ascii.eqb c LF then ([c], r)
      else let '(a, b) := println r in (c :: a, b)
  end.

(** [while ( pred( *p ) ) p ++;] *)
Fixpoint skip_while (f : ascii -> bool) (s : text) : text :=
  match s with
  | c :: r => if f c then skip_while f r else s
  | [] => []
  end.

Fixpoint take_while (f : ascii -> bool) (s : text) : text :=
  match s with
  | c :: r => if f c then c :: take_while f r else []
  | [] => []
  end.

Definition isblank (c : ascii) : bool := Ascii.eqb c SP || Ascii.eqb c TAB.

(** [printf("%d", n)] and [printf("%02d", n)]. *)
Definition fmt_d (n : Z) : text :=
  lit (NilZero.string_of_int (Z.to_int n)).

Definition fmt_02d (n : Z) : text :=
  let s := fmt_d n in
  if (length s <? 2)%nat then "0"%char :: s else s.

Definition INT_MAX : Z := 2147483647.

(** [atoi] on a run of decimal digits. *)
Definition atoi (num : text) : Z :=
  fold_left (fun acc c => acc * 10 + (Z.of_N (code c) - 48))%Z num 0%Z.

(** ** Dialects, elements and the list stack *)

Inductive macropackage_t := mp_mm | mp_man | mp_mdoc | mp_mom.

Inductive elem :=
| none
| par_end | ln_brk
| cblock_end | cblock_open
| li_open | li_end
| ol_open | ul_open | lst_close
| man_ref | ol | ul
| bq_open | bq_close
| box_open | box_close
| url_mark
| new_sh | new_ss | new_s4.

Definition MAX_LIST_SIZE : Z := 32.

Record lstack := mkStack {
  stk_list : list elem;     (* type of list *)
  stk_count : list Z;       (* counter of item *)
  stk_list_p : Z            (* top pointer, always points to first free *)
}.

Definition stack0 : lstack :=
  mkStack (repeat none 32) (repeat 0%Z 32) 0.

Fixpoint upd {A} (n : nat) (v : A) (a : list A) : list A :=
  match a, n with
  | [], _ => []
  | _ :: r, O => v :: r
  | x :: r, S m => x :: upd m v r
  end.

Definition in_bounds (i : Z) : bool := (0 <=? i)%Z && (i <? MAX_LIST_SIZE)%Z.

(** [a[i]] and [a[i] = v] on an array of [MAX_LIST_SIZE] entries; [None]
    outside the array. *)
Definition arr_get {A} (a : list A) (i : Z) : option A :=
  if in_bounds i then nth_error a (Z.to_nat i) else None.

Definition arr_set {A} (a : list A) (i : Z) (v : A) : option (list A) :=
  if in_bounds i then Some (upd (Z.to_nat i) v a) else None.

Definition is_ul (e : elem) : bool :=
  match e with ul => true | _ => false end.

(** [stk_list[stk_list_p] = kind; stk_count[stk_list_p] = 1; stk_list_p ++;] *)
Definition push (kind : elem) (s : lstack) : option lstack :=
  match arr_set (stk_list s) (stk_list_p s) kind,
        arr_set (stk_count s) (stk_list_p s) 1%Z with
  | Some l, Some c => Some (mkStack l c (stk_list_p s + 1))
  | _, _ => None
  end.

(** ** roff: the code of an element *)

Section Roff.

Variable mpack : macropackage_t.

Definition has_at (link : text) : bool := mem_char "@"%char link.

Definition roff_url (title link : text) : text :=
  match mpack with
  | mp_man =>
      if has_at link
      then lit ".MT " ++ link ++ [LF] ++ title ++ [LF] ++ lit ".ME" ++ [LF]
      else lit ".UR " ++ link ++ [LF] ++ title ++ [LF] ++ lit ".UE" ++ [LF]
  | mp_mdoc =>
      if has_at link
      then lit ".An " ++ title ++ lit " Aq Mt " ++ link ++ [LF]
      else lit ".Lk " ++ link ++ [SP; DQ] ++ title ++ [DQ; LF]
  | mp_mm => title ++ lit " <" ++ link ++ lit ">" ++ [LF]
  | mp_mom => title ++ lit " \*[UL]" ++ link ++ lit "\*[ULX]" ++ [LF]
  end.

Definition roff_man_ref (link : text) : text :=
  match mpack with
  | mp_mdoc => lit ".Xr " ++ link ++ [LF]
  | mp_man =>
      match split_at SP link with
      | Some (name, sect) =>
          lit "\fB" ++ name ++ lit "\fP(" ++ sect ++ lit ")" ++ [LF]
      | None => lit "\fB" ++ link ++ lit "\fP" ++ [LF]
      end
  | _ => link ++ [LF]
  end.

Definition odd (n : Z) : bool := negb (n mod 2 =? 0)%Z.

(** [roff(type, ...)]: the new list stack and the text written, [None]
    where the call reads or writes outside an array, misses a variadic
    argument or overflows a counter. *)
Definition roff (type : elem) (args : list text) (s : lstack)
  : option (lstack * text) :=
  match type with
  | par_end =>
      Some (s, match mpack with
               | mp_mdoc => puts (lit ".Pp")
               | _ => puts (lit ".PP")
               end)
  | ln_brk =>
      Some (s, match mpack with
               | mp_mom => puts (lit ".BR")
               | _ => puts (lit ".br")
               end)
  | url_mark =>
      match args with
      | title :: link :: _ => Some (s, roff_url title link)
      | _ => None
      end
  | box_open =>
      Some (s, match mpack with
               | mp_mom => puts (lit ".DRH")
               | mp_man => puts (lit ".B")
               | _ => puts (lit ".FT B")
               end)
  | box_close =>
      Some (s, match mpack with
               | mp_mom => puts (lit ".DRH")
               | _ => puts (lit ".FT P")
               end)
  | cblock_open =>
      Some (s, match mpack with
               | mp_mom => lit ".CODE" ++ [LF]
               | mp_mdoc => lit ".Bd -literal -offset indent" ++ [LF]
               | _ => lit ".RS 4" ++ [LF] ++ lit ".EX" ++ [LF]
               end)
  | cblock_end =>
      Some (s, match mpack with
               | mp_mom => lit ".CODE OFF" ++ [LF]
               | mp_mdoc => lit ".Ed" ++ [LF]
               | _ => [LF] ++ lit ".EE" ++ [LF] ++ lit ".RE" ++ [LF]
               end)
  | ol_open =>
      match push ol s with
      | Some s' =>
          Some (s', match mpack with
                    | mp_mom =>
                        if (stk_list_p s' =? 2)%Z then puts (lit ".LIST ALPHA")
                        else if (stk_list_p s' =? 4)%Z then puts (lit ".LIST alpha")
                        else puts (lit ".LIST DIGIT")
                    | mp_mdoc => puts (lit ".Bl -enum -offset indent")
                    | mp_mm => puts (lit ".AL")
                    | mp_man => []
                    end)
      | None => None
      end
  | ul_open =>
      match push ul s with
      | Some s' =>
          Some (s', match mpack with
                    | mp_mom =>
                        lit ".LIST " ++
                        (if odd (stk_list_p s') then lit "BULLET" else lit "DASH")
                    | mp_mdoc =>
                        lit ".Bl -" ++
                        (if odd (stk_list_p s') then lit "bullet" else lit "dash")
                        ++ lit " -offset indent"
                    | mp_mm => puts (lit ".BL")
                    | mp_man => []
                    end)
      | None => None
      end
  | lst_close =>
      Some (s, match mpack with
               | mp_mom => puts (lit ".LIST OFF")
               | mp_mdoc => puts (lit ".El")
               | _ => []
               end)
  | li_open =>
      match mpack with
      | mp_mom => Some (s, puts (lit ".ITEM"))
      | mp_mdoc => Some (s, puts (lit ".It"))
      | mp_man =>
          if (stk_list_p s =? 0)%Z then Some (s, [])
          else
            match arr_get (stk_list s) (stk_list_p s - 1) with
            | Some k =>
                if is_ul k then Some (s, puts (lit ".IP \(bu 4"))
                else
                  match arr_get (stk_count s) (stk_list_p s - 1) with
                  | Some n =>
                      if (n <? INT_MAX)%Z then
                        match arr_set (stk_count s) (stk_list_p s - 1) (n + 1)%Z with
                        | Some c =>
                            Some (mkStack (stk_list s) c (stk_list_p s),
                                  lit ".IP " ++ fmt_d n ++ lit ". 4" ++ [LF])
                        | None => None
                        end
                      else None
                  | None => None
                  end
            | None => None
            end
      | mp_mm => Some (s, puts (lit ".LI"))
      end
  | li_end =>
      Some (s, match mpack with
               | mp_mm => puts (lit ".LE")
               | _ => []
               end)
  | new_sh =>
      Some (s, match mpack with
               | mp_mom => lit ".HEADING 1 " ++ [DQ]
               | mp_mdoc => lit ".Sh "
               | _ => lit ".SH "
               end)
  | new_ss =>
      Some (s, match mpack with
               | mp_mom => lit ".HEADING 2 " ++ [DQ]
               | mp_mdoc => lit ".Ss "
               | _ => lit ".SS "
               end)
  | new_s4 =>
      Some (s, match mpack with
               | mp_mom => lit ".HEADING 3 " ++ [DQ]
               | mp_mdoc => lit ".Ss "
               | _ => lit ".SS "
               end)
  | man_ref =>
      match args with
      | link :: _ => Some (s, roff_man_ref link)
      | [] => None
      end
  | _ => Some (s, [])
  end.

End Roff.

(** ** The line buffer [dest] *)

Definition DEST_SIZE : Z := 65536.   (* 64*1024 *)

(** [*d ++ = c] for every [c] of [s]: the new content, [None] when a write
    falls outside the buffer. *)
Definition dput (buf s : text) : option text :=
  if (Z.of_nat (length buf) + Z.of_nat (length s) <=? DEST_SIZE)%Z
  then Some (buf ++ s) else None.

(** What [flushln] writes for a non-empty buffer. *)
Definition flush_text (buf : text) : text :=
  match skip_space (cstr buf) with
  | [] => []
  | t => puts (Squeeze.sqzdup t)
  end.

(** [flushln(d, dest)]: the text written; the buffer is empty afterwards.
    [None] when [*d = '\0'] falls outside the buffer. *)
Definition flushln (buf : text) : option text :=
  match buf with
  | [] => Some []
  | _ => if (Z.of_nat (length buf) <? DEST_SIZE)%Z
         then Some (flush_text buf) else None
  end.

(** ** md2roff: the state of the scanner *)

Record state := mkState {
  back : text;        (* the characters before [p], the last one first *)
  p : text;           (* the source from [p] on *)
  d : text;           (* the buffer, from [dest] up to [d] *)
  bline : bool;
  bcode : bool;
  bold : bool;
  italics : bool;
  stk : lstack;       (* stk_list, stk_count, stk_list_p *)
  out : text          (* stdout *)
}.

(** [EXIT_FAILURE] of <stdlib.h>. *)
Definition EXIT_FAILURE : Z := 1.

Inductive outcome :=
| Running (st : state)            (* the next iteration of the loop *)
| Returned (o : text)             (* md2roff returns *)
| Exited (o : text) (e : text) (status : Z)   (* exit(status), with stderr *)
| Undefined.

Definition with_d (st : state) (x : text) : state :=
  mkState (back st) (p st) x (bline st) (bcode st) (bold st) (italics st)
          (stk st) (out st).

Definition with_bline (st : state) (b : bool) : state :=
  mkState (back st) (p st) (d st) b (bcode st) (bold st) (italics st)
          (stk st) (out st).

Definition with_bcode (st : state) (b : bool) : state :=
  mkState (back st) (p st) (d st) (bline st) b (bold st) (italics st)
          (stk st) (out st).

Definition with_bold (st : state) (b : bool) : state :=
  mkState (back st) (p st) (d st) (bline st) (bcode st) b (italics st)
          (stk st) (out st).

Definition with_italics (st : state) (b : bool) : state :=
  mkState (back st) (p st) (d st) (bline st) (bcode st) (bold st) b
          (stk st) (out st).

Definition with_stk (st : state) (s : lstack) : state :=
  mkState (back st) (p st) (d st) (bline st) (bcode st) (bold st)
          (italics st) s (out st).

(** [printf], [puts] and [putchar]. *)
Definition emit (st : state) (t : text) : state :=
  mkState (back st) (p st) (d st) (bline st) (bcode st) (bold st)
          (italics st) (stk st) (out st ++ t).

(** [p] moves forward to [rest], a suffix of the current position. *)
Definition move_to (st : state) (rest : text) : state :=
  mkState (rev (firstn (length (p st) - length rest) (p st)) ++ back st) rest
          (d st) (bline st) (bcode st) (bold st) (italics st) (stk st)
          (out st).

(** [p += n] *)
Definition advance (st : state) (n : nat) : state :=
  move_to st (skipn n (p st)).

Definition bind {A B} (m : option A) (f : A -> option B) : option B :=
  match m with Some x => f x | None => None end.

Notation "x <- m ;; k" := (bind m (fun x => k))
  (at level 61, m at next level, right associativity).

Definition continue (m : option state) : outcome :=
  match m with Some st => Running st | None => Undefined end.

Definition fence : text := lit "```".

Definition is_rule (s : text) : bool :=
  prefixb (lit "===") s || prefixb (lit "---") s || prefixb (lit "***") s.

(** The characters before which emphasis may open: the argument of the
    [strchr] on [pc]; the search also finds the terminator. *)
Definition boundary (pc : ascii) : bool :=
  mem_char pc (lit "({[,.;`'" ++ [DQ; SP; TAB; LF]) || Ascii.eqb pc NUL.

(** [(p > source) ? *(p-1) : ' '] *)
Definition prev_char (st : state) : ascii :=
  match back st with c :: _ => c | [] => SP end.

(** The escape table of the backslash. *)
Definition escape (c : ascii) : ascii :=
  if Ascii.eqb c "n" then LF
  else if Ascii.eqb c "r" then CR
  else if Ascii.eqb c "t" then TAB
  else if Ascii.eqb c "f" then FF
  else if Ascii.eqb c "b" then BS
  else if Ascii.eqb c "a" then BEL
  else if Ascii.eqb c "e" then ESC
  else c.

(** The tail of a link after the opening bracket: the label up to the
    first closing bracket, which an opening parenthesis must follow, the
    target up to the first closing parenthesis, and the rest. *)
Definition link_parse (s : text) : option (text * text * text) :=
  match split_at "]"%char s with
  | Some (label, c :: after) =>
      if Ascii.eqb c "("%char then
        match split_at ")"%char after with
        | Some (target, rest) => Some (label, target, rest)
        | None => None
        end
      else None
  | _ => None
  end.

Definition diagnostic : text := lit "inline code (`) didnt closed.".

(** ** md2roff: one iteration of the main loop *)

Section Transducer.

Variable mpack : macropackage_t.

Definition is_mom : bool :=
  match mpack with mp_mom => true | _ => false end.

Definition is_man : bool :=
  match mpack with mp_man => true | _ => false end.

Definition do_roff (type : elem) (args : list text) (st : state)
  : option state :=
  r <- roff mpack type args (stk st) ;;
  Some (emit (with_stk st (fst r)) (snd r)).

(** [d = flushln(d, dest);] *)
Definition do_flush (st : state) : option state :=
  t <- flushln (d st) ;; Some (emit (with_d st []) t).

(** [d = stradd(d, s);] and [*d ++ = c;] *)
Definition do_put (s : text) (st : state) : option state :=
  b <- dput (d st) s ;; Some (with_d st b).

(** Inside a code block. *)
Definition step_code (st : state) : outcome :=
  continue (
    st1 <- do_flush st ;;
    if prefixb fence (p st1) then
      st2 <- do_roff cblock_end [] (with_bcode (advance st1 3) false) ;;
      do_flush st2
    else
      let xchg_dot := Ascii.eqb (peek (p st1)) "."%char in
      let st2 :=
        if xchg_dot
        then emit st1 (puts (if is_mom then lit ".ESC_CHAR !" else lit ".cc !"))
        else st1 in
      let '(ln, rest) := println (p st2) in
      let st3 := move_to (emit st2 ln) rest in
      Some (if xchg_dot
            then emit st3 (puts (if is_mom then lit ".ESC_CHAR ." else lit "!cc ."))
            else st3)).

(** A backslash: the next character goes through the escape table.  At
    the end of the source the second [p ++] leaves the string. *)
Definition step_escape (st : state) : outcome :=
  match p st with
  | _ :: c :: _ =>
      continue (st1 <- do_put [escape c] st ;;
                Some (with_bline (advance st1 2) false))
  | _ => Undefined
  end.

(** What the block at the beginning of a line does: the iteration ends
    there ([continue]), or control reaches the in-line part. *)
Inductive bol :=
| Done (o : outcome)
| Fall (st : state).

Definition pop (s : lstack) : lstack :=
  mkStack (stk_list s) (stk_count s) (stk_list_p s - 1).

(** An empty line. *)
Definition bol_blank (st : state) : option state :=
  st1 <- do_flush st ;;
  st2 <- (if (stk_list_p (stk st1) =? 0)%Z then Some st1
          else
            a <- do_roff li_end [] st1 ;;
            b <- do_roff lst_close [] a ;;
            Some (with_stk b (pop (stk b)))) ;;
  st3 <- do_roff par_end [] st2 ;;
  Some (advance (with_bline st3 true) 1).

Definition is_hash (c : ascii) : bool := Ascii.eqb c "#"%char.

(** [p = println(p);] *)
Definition do_println (st : state) : state :=
  let '(ln, rest) := println (p st) in move_to (emit st ln) rest.

(** A line that starts with [#]. *)
Definition bol_header (st : state) : bol :=
  match do_flush st with
  | None => Done Undefined
  | Some st1 =>
      match split_at LF (p st1) with
      | None => Fall st1
      | Some (line, _) =>
          if negb (is_hash (last line NUL)) then
            let level := length (take_while is_hash (p st1)) in
            let st2 :=
              move_to st1 (skip_while isblank (skip_while is_hash (p st1))) in
            match level with
            | 1%nat | 2%nat =>
                match do_roff new_sh [] st2 with
                | Some st3 => Fall (do_println st3)
                | None => Done Undefined
                end
            | 3%nat =>
                match do_roff new_ss [] st2 with
                | Some st3 => Fall (do_println st3)
                | None => Done Undefined
                end
            | _ =>
                if is_man then
                  Done (Running
                          (emit (do_println (emit st2 (lit ".TP" ++ [LF] ++ lit "\fB")))
                                (lit "\fR")))
                else Done (continue (do_roff new_s4 [] st2))
            end
          else
            Done (continue (
              a <- do_roff box_open [] st1 ;;
              b <- do_roff ln_brk [] a ;;
              c <- do_roff ln_brk [] (do_println b) ;;
              do_roff box_close [] c))
      end
  end.

Definition is_bullet (c : ascii) : bool :=
  Ascii.eqb c "*"%char || Ascii.eqb c "+"%char || Ascii.eqb c "-"%char.

(** An unordered list item. *)
Definition bol_ul (st : state) : option state :=
  st1 <- do_flush st ;;
  st2 <- (if (stk_list_p (stk st1) =? 0)%Z
          then do_roff ul_open [] st1
          else do_roff li_end [] st1) ;;
  st3 <- do_roff li_open [] st2 ;;
  Some (advance st3 1).

(** [stk_count[stk_list_p-1] = atoi(num);] *)
Definition seed (num : text) (st : state) : option state :=
  if (atoi num <=? INT_MAX)%Z then
    c <- arr_set (stk_count (stk st)) (stk_list_p (stk st) - 1) (atoi num) ;;
    Some (with_stk st (mkStack (stk_list (stk st)) c (stk_list_p (stk st))))
  else None.

(** A line that starts with a digit: an ordered list item when a dot
    follows the digits.  [num] holds 15 digits and the terminator. *)
Definition bol_ol (st : state) : bol :=
  let num := take_while isdigit (p st) in
  let rest := skip_while isdigit (p st) in
  if (15 <? length num)%nat then Done Undefined
  else if Ascii.eqb (peek rest) "."%char then
    Done (continue (
      st1 <- do_flush (move_to st rest) ;;
      st2 <- (if (stk_list_p (stk st1) =? 0)%Z
              then do_roff ol_open [] st1
              else do_roff li_end [] st1) ;;
      st3 <- seed num st2 ;;
      st4 <- do_roff li_open [] st3 ;;
      Some (move_to st4 (skip_while isblank (tl (p st4))))))
  else Fall st.

(** The opening fence of a code block. *)
Definition bol_fence (st : state) : option state :=
  st1 <- do_flush (advance (with_bcode st true) 3) ;;
  do_roff cblock_open [] st1.

(** The beginning of a line. *)
Definition step_bol (st0 : state) : bol :=
  let st := with_bline st0 false in
  let c := peek (p st) in
  if Ascii.eqb c LF then Done (continue (bol_blank st))
  else if is_hash c then bol_header st
  else if isblank (peek (tl (p st))) && is_bullet c
       then Done (continue (bol_ul st))
  else if isdigit c then bol_ol st
  else if prefixb fence (p st) then Done (continue (bol_fence st))
  else Fall st.

(** A ruler under a non-empty buffer: the section header. *)
Definition setext (st : state) : option state :=
  if (Z.of_nat (length (d st)) <? DEST_SIZE)%Z then
    match split_last LF (cstr (d st)) with
    | Some (a, b) =>
        st1 <- do_roff new_sh []
                 (emit st (match a with [] => [] | _ => puts a end)) ;;
        Some (with_d (emit st1 (b ++ [LF])) [])
    | None =>
        st1 <- do_roff new_sh [] st ;;
        do_flush st1
    end
  else None.

Definition is_star (c : ascii) : bool :=
  Ascii.eqb c "*"%char || Ascii.eqb c "_"%char.

(** In line. *)
Definition step_inline (st : state) : outcome :=
  match p st with
  | [] => Undefined
  | c :: r =>
      if Ascii.eqb c LF then
        if is_rule r then
          match split_at LF r with
          | None => Returned (out st)
          | Some (_, rest) =>
              match d st with
              | [] => Running (move_to st rest)
              | _ => continue (setext (move_to st rest))
              end
          end
        else
          continue (st1 <- do_put [SP] st ;;
                    Some (advance (with_bline st1 true) 1))
      else if is_star c && Ascii.eqb (peek r) c then
        continue (
          st1 <- (if bold st then
                    do_put (if is_mom then lit "\*[PREV]" else lit "\fP")
                           (with_bold st false)
                  else if boundary (prev_char st) then
                    do_put (if is_mom then lit "\*[BD]" else lit "\fB")
                           (with_bold st true)
                  else do_put [c; peek r] st) ;;
          Some (advance st1 2))
      else if is_star c then
        continue (
          st1 <- (if italics st then
                    do_put (if is_mom then lit "\*[PREV]" else lit "\fP")
                           (with_italics st false)
                  else if boundary (prev_char st) then
                    do_put (if is_mom then lit "\*[IT]" else lit "\fI")
                           (with_italics st true)
                  else do_put [c] st) ;;
          Some (advance st1 1))
      else if Ascii.eqb c "`"%char then
        let opening := if is_mom then lit "`\*[CODE]" else lit "`\f[CR]" in
        let closing := if is_mom then lit "\*[CODE OFF]'" else lit "\fP'" in
        match split_at "`"%char r with
        | Some (body, rest) =>
            continue (st1 <- do_put (opening ++ body ++ closing) st ;;
                      Some (move_to st1 rest))
        | None =>
            match do_put (opening ++ r) st with
            | Some _ => Exited (out st) diagnostic EXIT_FAILURE
            | None => Undefined
            end
        end
      else if Ascii.eqb c "["%char
              || (Ascii.eqb c "!"%char && Ascii.eqb (peek r) "["%char) then
        let st1 := if Ascii.eqb c "!"%char then advance st 1 else st in
        match link_parse (tl (p st1)) with
        | Some (left', rght, rest) =>
            continue (
              st2 <- do_flush st1 ;;
              st3 <- (if text_eqb rght (lit "man")
                      then do_roff man_ref [left'] st2
                      else do_roff url_mark [left'; rght] st2) ;;
              Some (move_to st3 rest))
        | None =>
            continue (st2 <- do_put [peek (p st1)] st1 ;;
                      Some (advance st2 1))
        end
      else
        continue (st1 <- do_put [c] st ;; Some (advance st1 1))
  end.

(** The body of [while ( *p )]. *)
Definition step (st : state) : outcome :=
  if bcode st then step_code st
  else if Ascii.eqb (peek (p st)) "\"%char then step_escape st
  else if bline st then
    match step_bol st with
    | Done o => o
    | Fall st' => step_inline st'
    end
  else step_inline st.

(** The loop and the final [flushln]; [None] when [fuel] runs out. *)
Fixpoint run (fuel : nat) (st : state) : option outcome :=
  match fuel with
  | O => None
  | S f =>
      match p st with
      | [] => Some (match do_flush st with
                    | Some st' => Returned (out st')
                    | None => Undefined
                    end)
      | _ =>
          match step st with
          | Running st' => run f st'
          | o => Some o
          end
      end
  end.

(** ** md2roff: the preamble and the whole conversion *)

(** The fields of [struct tm] that the header reads. *)
Record tm := mkTm { tm_year : Z; tm_mon : Z; tm_mday : Z }.

(** [printf(".TH %s 7 %d-%02d-%02d document\n", ...)] *)
Definition th_today (docname : text) (t : tm) : text :=
  lit ".TH " ++ docname ++ lit " 7 " ++ fmt_d (tm_year t + 1900)
  ++ lit "-" ++ fmt_02d (tm_mon t + 1) ++ lit "-" ++ fmt_02d (tm_mday t)
  ++ lit " document" ++ [LF].

Definition comment_line : text :=
  puts (lit ".\" ++ [DQ] ++ lit " x-roff document").

Definition preamble (docname : text) (t : tm) (st : state) : state :=
  let st0 := emit st comment_line in
  match mpack with
  | mp_mm => emit st0 (puts (lit ".do mso m.tmac"))
  | mp_mdoc | mp_man =>
      let st1 :=
        emit st0 (puts (if is_man then lit ".do mso man.tmac"
                        else lit ".do mso mdoc.tmac")) in
      if is_hash (peek (p st1)) && isspace (peek (tl (p st1))) then
        do_println (advance (emit st1 (lit ".TH ")) 2)
      else emit st1 (th_today docname t)
  | mp_mom =>
      emit st0 (puts (lit ".do mso mom.tmac")
                ++ lit ".TITLE " ++ [DQ] ++ docname ++ [DQ; LF]
                ++ lit ".AUTHOR " ++ [DQ] ++ lit "md2roff" ++ [DQ; LF]
                ++ lit ".PAPER A4" ++ [LF]
                ++ lit ".PRINTSTYLE TYPESET" ++ [LF]
                ++ lit ".START" ++ [LF])
  end.

(** The state at the entry of [md2roff]: [globals] is the list stack the
    process has, of which only the top pointer is reset. *)
Definition entry (globals : lstack) (source : text) : state :=
  mkState [] (cstr source) [] true false false false
          (mkStack (stk_list globals) (stk_count globals) 0) [].

(** [md2roff(docname, source)], with the clock's answer [now]. *)
Definition md2roff (globals : lstack) (now : tm) (docname source : text)
  : option outcome :=
  let st := preamble (cstr docname) now (entry globals source) in
  run (S (length (p st))) st.

End Transducer.

(** [n] lines of text, each ended by a newline. *)
Definition unlines (ls : list string) : text :=
  concat (map (fun l => lit l ++ [LF]) ls).

(** ** Vocabulary of the statements *)

(** [s] is empty or starts with a character other than white space. *)
Definition starts_nonspace (s : text) : Prop := isspace (peek s) = false.

(** What a run of white space after [c] becomes. *)
Definition sep (c : ascii) (b : text) : text :=
  if isalnum c || isalnum (peek b) then [SP] else [].



(** What [roff] writes for an element without arguments. *)
Definition roff_text (mpack : macropackage_t) (type : elem) : text :=
  match roff mpack type [] stack0 with
  | Some (_, t) => t
  | None => []
  end.

Definition sp (st : state) : Z := stk_list_p (stk st).

(** [b] is [a] with more text written after it. *)
Definition ext (a b : text) : Prop := exists t, b = a ++ t.

(** The elements that push a list. *)
Definition delta (type : elem) : Z :=
  match type with ol_open | ul_open => 1 | _ => 0 end.

(** [st'] is at the position of [st]; the stack pointer moved by [k]. *)
Definition same_pos (k : Z) (st st' : state) : Prop :=
  p st' = p st /\ ext (out st) (out st') /\ sp st' = (sp st + k)%Z.

(** [st'] is [n] characters further at least; the stack pointer moved by
    [k]. *)
Definition progress (n : nat) (k : Z) (st st' : state) : Prop :=
  (length (p st') + n <= length (p st))%nat
  /\ ext (out st) (out st') /\ sp st' = (sp st + k)%Z.

(** The moves of the stack pointer that the code makes. *)
Definition allowed (k : Z) (st : state) : Prop :=
  (k = 0 \/ (k = 1 /\ sp st = 0) \/ (k = -1 /\ sp st <> 0))%Z.

(** The states that the loop of [md2roff] goes through from [st0]. *)
Inductive reachable (mpack : macropackage_t) (st0 : state) : state -> Prop :=
| reach_start : reachable mpack st0 st0
| reach_step st st' :
    reachable mpack st0 st -> p st <> [] -> step mpack st = Running st' ->
    reachable mpack st0 st'.

(** What is on [stdout] when the conversion ends. *)
Definition stdout_of (o : outcome) : option text :=
  match o with
  | Running st => Some (out st)
  | Returned t => Some t
  | Exited t _ _ => Some t
  | Undefined => None
  end.

(** [needle] occurs in [hay]. *)
Fixpoint occurs (needle hay : text) : bool :=
  prefixb needle hay
  || match hay with
     | [] => false
     | _ :: r => occurs needle r
     end.

(** A clock for the examples: 30 October 2026. *)
Definition today : tm := mkTm 126 9 30.

(** The scanner after the first item of [1. first / 5. second] in the man
    dialect. *)
Definition at_second_item : state :=
  mkState (rev (unlines ["1. first"])) (unlines ["5. second"]) (lit "first ")
          true false false false
          (mkStack (ol :: repeat none 31) (2%Z :: repeat 0%Z 31) 1)
          (comment_line
           ++ unlines [".do mso man.tmac"; ".TH doc 7 2026-10-30 document";
                       ".IP 1. 4"]).

(** The scanner at the end of the line [Title], before a ruler with text
    after it. *)
Definition at_ruler : state :=
  mkState (rev (lit "Title")) (LF :: unlines ["===x"; "more"]) (lit "Title")
          false false false false stack0 [].



(** The first state of the loop on a bullet list in the mm dialect, and
    the one after it. *)
Definition bullets_start : state :=
  preamble mp_mm (cstr (lit "doc")) today (entry stack0 (unlines ["* a"; "* b"])).

Definition bullets_next : state :=
  match step mp_mm bullets_start with
  | Running st => st
  | _ => bullets_start
  end.

(** ** Vocabulary of the further properties *)

(** The characters that [sqzdup] never removes. *)
Definition nonspace (c : ascii) : bool := negb (isspace c).

(** [n] calls of [roff(li_open)] in a row: the stack and the text of all. *)
Fixpoint li_opens (mpack : macropackage_t) (n : nat) (s : lstack)
  : option (lstack * text) :=
  match n with
  | O => Some (s, [])
  | S m =>
      match roff mpack li_open [] s with
      | Some (s1, t1) =>
          match li_opens mpack m s1 with
          | Some (s2, t2) => Some (s2, t1 ++ t2)
          | None => None
          end
      | None => None
      end
  end.

(** The line of an ordered item in the man dialect. *)
Definition ip_line (n : Z) : text :=
  lit ".IP " ++ fmt_d n ++ lit ". 4" ++ [LF].

(** The line that switches the control character before a line of code
    that starts with a dot, and the one that switches it back. *)
Definition dot_guard (mpack : macropackage_t) (s : text) : text * text :=
  if Ascii.eqb (peek s) "."%char
  then (puts (if is_mom mpack then lit ".ESC_CHAR !" else lit ".cc !"),
        puts (if is_mom mpack then lit ".ESC_CHAR ." else lit "!cc ."))
  else ([], []).

(** The marks of strong text and of emphasis in a dialect. *)
Definition strong_open (mpack : macropackage_t) : text :=
  if is_mom mpack then lit "\*[BD]" else lit "\fB".

Definition em_open (mpack : macropackage_t) : text :=
  if is_mom mpack then lit "\*[IT]" else lit "\fI".

Definition style_close (mpack : macropackage_t) : text :=
  if is_mom mpack then lit "\*[PREV]" else lit "\fP".

(** What [roff] writes for a link: a reference to a man page when the
    target is the word man, a hyperlink otherwise. *)
Definition link_text (mpack : macropackage_t) (label target : text) : text :=
  if text_eqb target (lit "man") then roff_man_ref mpack label
  else roff_url mpack label target.

(** The characters that the in-line part copies to the buffer as they
    are. *)
Definition plain (c : ascii) : bool :=
  negb (Ascii.eqb c "\"%char || Ascii.eqb c LF || is_star c
        || Ascii.eqb c "`"%char || Ascii.eqb c "["%char).

(** The plain characters that open no block at the beginning of a line. *)
Definition bol_plain (c : ascii) : bool :=
  plain c && negb (is_hash c) && negb (isdigit c) && negb (is_bullet c).

(** The preamble of a dialect for a document that has no title line. *)
Definition plain_preamble (mpack : macropackage_t) (docname : text) (t : tm)
  : text :=
  comment_line
  ++ match mpack with
     | mp_mm => puts (lit ".do mso m.tmac")
     | mp_man => puts (lit ".do mso man.tmac") ++ th_today docname t
     | mp_mdoc => puts (lit ".do mso mdoc.tmac") ++ th_today docname t
     | mp_mom =>
         puts (lit ".do mso mom.tmac")
         ++ lit ".TITLE " ++ [DQ] ++ docname ++ [DQ; LF]
         ++ lit ".AUTHOR " ++ [DQ] ++ lit "md2roff" ++ [DQ; LF]
         ++ lit ".PAPER A4" ++ [LF]
         ++ lit ".PRINTSTYLE TYPESET" ++ [LF]
         ++ lit ".START" ++ [LF]
     end.

(** * Proofs *)

(** * Facts about characters and C strings *)

Lemma skip_space_id s : starts_nonspace s -> skip_space s = s.
Proof.
  unfold starts_nonspace. destruct s as [|c r]; simpl; intros H; [reflexivity|].
  now rewrite H.
Qed.

Lemma skip_space_starts s : starts_nonspace (skip_space s).
Proof.
  unfold starts_nonspace. induction s as [|c r IH]; simpl; [reflexivity|].
  destruct (isspace c) eqn:E; [exact IH|]. simpl. exact E.
Qed.

Lemma skip_space_app ws b :
  forallb isspace ws = true -> skip_space (ws ++ b) = skip_space b.
Proof.
  induction ws as [|w ws IH]; simpl; intros H; [reflexivity|].
  apply andb_true_iff in H. destruct H as [Hw Hws]. rewrite Hw. auto.
Qed.

Lemma cstr_id s : ~ In NUL s -> cstr s = s.
Proof.
  induction s as [|c r IH]; simpl; intros H; [reflexivity|].
  destruct (Ascii.eqb c NUL) eqn:E.
  - apply Ascii.eqb_eq in E. exfalso. apply H. now left.
  - f_equal. apply IH. intros Hin. apply H. now right.
Qed.

Lemma cstr_no_NUL s : ~ In NUL (cstr s).
Proof.
  induction s as [|c r IH]; simpl; [tauto|].
  destruct (Ascii.eqb c NUL) eqn:E; simpl; [tauto|].
  intros [H|H]; [|tauto]. subst c. discriminate E.
Qed.

Module SqueezeFacts.
Import Squeeze.

(** ** The loop of sqzdup *)

(** At a character other than white space the loop forgets [prev] and
    [lc]. *)
Lemma sqz_loop_start prev lc s :
  starts_nonspace s -> sqz_loop prev lc s = sqz_loop None false s.
Proof.
  unfold starts_nonspace. destruct s as [|c r]; simpl; intros H; [reflexivity|].
  now rewrite H.
Qed.

(** Inside a run of white space nothing is written. *)
Lemma sqz_loop_gap ws : forall prev b,
  forallb isspace ws = true -> starts_nonspace b ->
  sqz_loop prev true (ws ++ b) = sqz_loop None false b.
Proof.
  induction ws as [|w ws IH]; simpl; intros prev b H Hb.
  - now apply sqz_loop_start.
  - apply andb_true_iff in H. destruct H as [Hw Hws]. rewrite Hw. auto.
Qed.

Lemma sqz_loop_run c ws b :
  isspace c = false -> ws <> [] -> forallb isspace ws = true ->
  starts_nonspace b ->
  sqz_loop (Some c) false (ws ++ b) = sep c b ++ sqz_loop None false b.
Proof.
  intros Hc Hne Hws Hb. destruct ws as [|w ws]; [congruence|].
  simpl in Hws. apply andb_true_iff in Hws. destruct Hws as [Hw Hws].
  change ((w :: ws) ++ b) with (w :: (ws ++ b)).
  cbn [sqz_loop]. rewrite Hw.
  assert (Hk : skip_space (w :: ws ++ b) = b).
  { simpl. rewrite Hw. rewrite skip_space_app by assumption.
    now apply skip_space_id. }
  rewrite Hk. rewrite (sqz_loop_gap ws (Some w) b Hws Hb).
  unfold sep. destruct (isalnum c); simpl; [reflexivity|].
  destruct (isalnum (peek b)); reflexivity.
Qed.

Lemma peek_skip_space_app a c t1 t2 :
  isspace c = false ->
  peek (skip_space (a ++ c :: t1)) = peek (skip_space (a ++ c :: t2)).
Proof.
  intros Hc. induction a as [|x a IH]; simpl.
  - now rewrite Hc.
  - destruct (isspace x); [exact IH|reflexivity].
Qed.

(** The loop over a text cut after a character other than white space. *)
Lemma sqz_loop_app a : forall prev lc c t,
  isspace c = false ->
  sqz_loop prev lc (a ++ c :: t)
  = sqz_loop prev lc (a ++ [c]) ++ sqz_loop (Some c) false t.
Proof.
  induction a as [|x a IH]; intros prev lc c t Hc.
  - simpl. now rewrite Hc.
  - change ((x :: a) ++ c :: t) with (x :: (a ++ c :: t)).
    change ((x :: a) ++ [c]) with (x :: (a ++ [c])).
    cbn [sqz_loop]. destruct (isspace x) eqn:Hx.
    + destruct lc; [now apply IH|].
      destruct prev as [b0|]; [|now apply IH].
      destruct (isalnum b0).
      * simpl. f_equal. now apply IH.
      * assert (E : peek (skip_space (x :: a ++ c :: t))
                    = peek (skip_space (x :: a ++ [c]))).
        { simpl. rewrite Hx. now apply peek_skip_space_app. }
        rewrite E. destruct (isalnum _); [simpl; f_equal|]; now apply IH.
    + simpl. f_equal. now apply IH.
Qed.

Lemma sqz_loop_snoc a : forall prev lc c,
  isspace c = false ->
  exists u, sqz_loop prev lc (a ++ [c]) = u ++ [c].
Proof.
  induction a as [|x a IH]; intros prev lc c Hc.
  - exists []. simpl. now rewrite Hc.
  - change ((x :: a) ++ [c]) with (x :: (a ++ [c])). cbn [sqz_loop].
    destruct (isspace x).
    + destruct lc; [now apply IH|].
      destruct prev as [b0|]; [|now apply IH].
      destruct (isalnum b0).
      * destruct (IH (Some x) true c Hc) as [u Hu]. exists (SP :: u).
        now rewrite Hu.
      * destruct (isalnum _).
        -- destruct (IH (Some x) true c Hc) as [u Hu]. exists (SP :: u).
           now rewrite Hu.
        -- now apply IH.
    + destruct (IH (Some x) false c Hc) as [u Hu]. exists (x :: u).
      now rewrite Hu.
Qed.

(** ** chop *)

Lemma chop_snoc u w : chop (u ++ [w]) = if isspace w then u else u ++ [w].
Proof.
  unfold chop. rewrite rev_app_distr. simpl.
  destruct (isspace w); [apply rev_involutive|reflexivity].
Qed.

Lemma chop_app x r : r <> [] -> chop (x ++ r) = x ++ chop r.
Proof.
  intros Hr. destruct (exists_last Hr) as [u [w E]]. subst r.
  rewrite app_assoc, !chop_snoc. destruct (isspace w); [reflexivity|].
  now rewrite app_assoc.
Qed.

(** ** The leading white space *)

Lemma skip_lead_snd s : forall prev, snd (skip_lead prev s) = skip_space s.
Proof.
  induction s as [|c r IH]; simpl; intros prev; [reflexivity|].
  destruct (isspace c); [apply IH|reflexivity].
Qed.

Lemma sqzdup_eq source :
  sqzdup source = chop (sqz_loop None false (skip_space (cstr source))).
Proof.
  unfold sqzdup.
  pose proof (skip_lead_snd (cstr source) None) as H.
  destruct (skip_lead None (cstr source)) as [prev s]. simpl in H. subst s.
  f_equal. apply sqz_loop_start, skip_space_starts.
Qed.

Lemma skip_space_cut a c :
  isspace c = false ->
  exists a', forall t', skip_space (a ++ c :: t') = a' ++ c :: t'.
Proof.
  intros Hc. induction a as [|x a IH].
  - exists []. intros t'. simpl. now rewrite Hc.
  - simpl. destruct (isspace x).
    + exact IH.
    + exists (x :: a). reflexivity.
Qed.


(** ** The squeezed shape *)

Lemma peek_loop_gap r : forall w,
  peek (sqz_loop (Some w) true r) = peek (skip_space r).
Proof.
  induction r as [|c r IH]; intros w; simpl; [reflexivity|].
  destruct (isspace c); [apply IH|reflexivity].
Qed.

Lemma nf_loop s :
  ~ In NUL s ->
  (forall a, isspace a = false -> nf (Some a) (sqz_loop (Some a) false s) = true)
  /\ (forall w o, nf o (sqz_loop (Some w) true s) = true).
Proof.
  induction s as [|c r IH]; intros Hn; [split; reflexivity|].
  assert (Hr : ~ In NUL r) by (intros Hin; apply Hn; now right).
  assert (Hc : Ascii.eqb c NUL = false).
  { destruct (Ascii.eqb c NUL) eqn:E; [|reflexivity].
    apply Ascii.eqb_eq in E. exfalso. apply Hn. now left. }
  destruct (IH Hr) as [IH1 IH2]. clear IH.
  assert (Hsp : forall a, isspace a = false ->
     nf (Some a) (SP :: sqz_loop (Some c) true r)
     = isalnum a || isalnum (peek (skip_space r))).
  { intros a Ha. cbn [nf]. change (isspace SP) with true. cbv iota.
    rewrite peek_loop_gap, IH2, Ha.
    rewrite (skip_space_starts r : isspace _ = false).
    change (Ascii.eqb SP SP) with true. simpl.
    now rewrite !andb_true_r. }
  split.
  - intros a Ha. cbn [sqz_loop]. destruct (isspace c) eqn:Hx.
    + destruct (isalnum a) eqn:Ea.
      * rewrite Hsp by assumption. now rewrite Ea.
      * simpl skip_space. rewrite Hx. destruct (isalnum _) eqn:Eb.
        -- rewrite Hsp by assumption. apply orb_true_r.
        -- apply IH2.
    + cbn [nf]. rewrite Hx, Hc. simpl. now apply IH1.
  - intros w o. cbn [sqz_loop]. destruct (isspace c) eqn:Hx.
    + apply IH2.
    + cbn [nf]. rewrite Hx, Hc. simpl. now apply IH1.
Qed.

Lemma nf_starts s : nf None s = true -> starts_nonspace s.
Proof.
  unfold starts_nonspace. destruct s as [|c r]; simpl; [reflexivity|].
  destruct (isspace c); [|reflexivity].
  rewrite andb_false_r. simpl. discriminate.
Qed.

Lemma nf_no_NUL s : forall o, nf o s = true -> ~ In NUL s.
Proof.
  induction s as [|c r IH]; simpl; intros o H; [tauto|].
  destruct (isspace c) eqn:Hx.
  - apply andb_true_iff in H. destruct H as [_ H].
    intros [E|Hin]; [subst c; discriminate Hx|]. now apply (IH _ H).
  - apply andb_true_iff in H. destruct H as [Hc H].
    intros [E|Hin]; [subst c; discriminate Hc|]. now apply (IH _ H).
Qed.

(** The loop leaves a squeezed text as it is. *)
Lemma nf_fixed s : forall prev lc o,
  nf o s = true ->
  (lc = false /\ prev = o /\ exists a, o = Some a /\ isspace a = false)
  \/ starts_nonspace s ->
  sqz_loop prev lc s = s.
Proof.
  induction s as [|c r IH]; intros prev lc o H Hst; [reflexivity|].
  cbn [nf] in H. cbn [sqz_loop]. destruct (isspace c) eqn:Hx.
  - destruct Hst as [(Hlc & Hp & a & Ho & Ha)|Hst];
      [|unfold starts_nonspace in Hst; simpl in Hst; congruence].
    subst lc prev o.
    apply andb_true_iff in H. destruct H as [H Hnf].
    apply andb_true_iff in H. destruct H as [H Hpk].
    apply andb_true_iff in H. destruct H as [Hsp H].
    apply andb_true_iff in H. destruct H as [_ Hal].
    apply Ascii.eqb_eq in Hsp. subst c.
    apply negb_true_iff in Hpk.
    assert (Hk : skip_space (SP :: r) = r).
    { simpl. change (isspace SP) with true. cbv iota.
      now apply skip_space_id. }
    rewrite Hk.
    assert (Hr : sqz_loop (Some SP) true r = r).
    { apply (IH _ _ (Some SP) Hnf). now right. }
    rewrite Hr. destruct (isalnum a); [reflexivity|].
    simpl in Hal. now rewrite Hal.
  - apply andb_true_iff in H. destruct H as [_ Hnf]. f_equal.
    apply (IH _ _ (Some c) Hnf). left. repeat split. now exists c.
Qed.

Lemma nf_cons o c r :
  nf o (c :: r)
  = if isspace c then
      Ascii.eqb c SP
      && match o with
         | Some a => negb (isspace a) && (isalnum a || isalnum (peek r))
         | None => false
         end
      && negb (isspace (peek r))
      && nf (Some c) r
    else negb (Ascii.eqb c NUL) && nf (Some c) r.
Proof. reflexivity. Qed.

(** Cutting the final blank keeps the shape, and no white space is left
    at the end. *)
Lemma nf_snoc_space u : forall o w,
  nf o (u ++ [w]) = true -> isspace w = true ->
  nf o u = true /\ isspace (last u NUL) = false.
Proof.
  induction u as [|c u IH]; intros o w H Hw; [split; reflexivity|].
  change ((c :: u) ++ [w]) with (c :: (u ++ [w])) in H. cbn [nf] in H.
  destruct (isspace c) eqn:Hx.
  - apply andb_true_iff in H. destruct H as [H Hnf].
    apply andb_true_iff in H. destruct H as [H Hpk].
    apply negb_true_iff in Hpk.
    destruct u as [|c' u'].
    { simpl in Hpk. congruence. }
    destruct (IH _ _ Hnf Hw) as [Hu Hl]. split.
    + rewrite nf_cons, Hx, Hu, andb_true_r.
      change (peek (c' :: u')) with c'. simpl in Hpk. rewrite Hpk.
      simpl in H. now rewrite H.
    + exact Hl.
  - apply andb_true_iff in H. destruct H as [Hc Hnf].
    destruct (IH _ _ Hnf Hw) as [Hu Hl]. split.
    + rewrite nf_cons, Hx, Hc. exact Hu.
    + destruct u; [exact Hx|exact Hl].
Qed.

Lemma nf_chop t o :
  nf o t = true ->
  nf o (chop t) = true /\ isspace (last (chop t) NUL) = false.
Proof.
  intros H. destruct t as [|c t'] using rev_ind; [split; reflexivity|].
  clear IHt'. rewrite chop_snoc. destruct (isspace c) eqn:Hx.
  - now apply (nf_snoc_space t' o c).
  - split; [exact H|]. now rewrite last_last.
Qed.

Lemma chop_id t : isspace (last t NUL) = false -> chop t = t.
Proof.
  destruct t as [|c t'] using rev_ind; [reflexivity|]. clear IHt'.
  rewrite last_last, chop_snoc. now intros ->.
Qed.

(** The result of [sqzdup] has the squeezed shape and no white space at
    its end. *)
Lemma sqzdup_nf x :
  nf None (sqzdup x) = true /\ isspace (last (sqzdup x) NUL) = false.
Proof.
  rewrite sqzdup_eq. apply nf_chop.
  rewrite <- (sqz_loop_start (Some SP) true) by apply skip_space_starts.
  apply nf_loop. intros Hin.
  assert (Hsuf : forall s, In NUL (skip_space s) -> In NUL s).
  { induction s as [|c r IH]; simpl; [tauto|].
    destruct (isspace c); [right; auto|tauto]. }
  apply Hsuf in Hin. now apply cstr_no_NUL in Hin.
Qed.

Lemma sqzdup_fixed y :
  nf None y = true -> isspace (last y NUL) = false -> sqzdup y = y.
Proof.
  intros Hnf Hl. rewrite sqzdup_eq.
  rewrite (cstr_id y) by (eapply nf_no_NUL; eassumption).
  rewrite skip_space_id by now apply nf_starts.
  rewrite (nf_fixed y None false None Hnf) by (right; now apply nf_starts).
  now apply chop_id.
Qed.

End SqueezeFacts.

Import Squeeze SqueezeFacts.

(** C8.  The squeeze is idempotent: squeezing the result of [sqzdup] again
    gives the same text, for every text. *)
Theorem sqzdup_idempotent (x : text) : sqzdup (sqzdup x) = sqzdup x.
Proof.
  destruct (sqzdup_nf x) as [Hnf Hl]. now apply sqzdup_fixed.
Qed.

(** C2, as amended.  In a text without NUL, a run [ws] of white space
    that follows the character [c] and comes before the text [b], which
    starts with a character other than white space, becomes one blank when
    [c] or the first character of [b] is alphanumeric, one of the two
    being enough, and is dropped when neither is; a run that ends the text
    is removed, and the result of [sqzdup] never ends in white space. *)
Theorem sqzdup_run_rule (a : text) (c : ascii) (ws b : text) :
  ~ In NUL (a ++ c :: b) ->
  isspace c = false ->
  ws <> [] -> forallb isspace ws = true ->
  isspace (peek b) = false ->
  (b <> [] ->
   sqzdup (a ++ c :: ws ++ b)
   = sqzdup (a ++ [c])
     ++ (if isalnum c || isalnum (peek b) then [SP] else [])
     ++ sqzdup b)
  /\ sqzdup (a ++ c :: ws) = sqzdup (a ++ [c])
  /\ (forall x, isspace (last (sqzdup x) NUL) = false).
Proof.
  intros Hn Hc Hne Hws Hb.
  assert (Hnws : ~ In NUL ws).
  { intros Hin. rewrite forallb_forall in Hws. now specialize (Hws _ Hin). }
  assert (Hna : ~ In NUL (a ++ [c])).
  { intros Hin. apply Hn. apply in_app_or in Hin. apply in_or_app.
    destruct Hin as [H|[H|[]]]; [now left|right; now left]. }
  assert (Hnb : ~ In NUL b).
  { intros Hin. apply Hn. apply in_or_app. right. now right. }
  assert (Hnall : forall t, ~ In NUL t -> ~ In NUL (a ++ c :: ws ++ t)).
  { intros t Ht Hin. apply in_app_or in Hin.
    destruct Hin as [H|[H|H]].
    - apply Hna, in_or_app. now left.
    - apply Hna, in_or_app. right. now left.
    - apply in_app_or in H. tauto. }
  destruct (skip_space_cut a c Hc) as [a' Ha'].
  destruct (sqz_loop_snoc a' None false c Hc) as [u Hu].
  assert (HL : sqzdup (a ++ [c]) = u ++ [c]).
  { rewrite sqzdup_eq, (cstr_id _ Hna), Ha', Hu, chop_snoc. now rewrite Hc. }
  assert (Hall : forall t, ~ In NUL t -> starts_nonspace t ->
            sqzdup (a ++ c :: ws ++ t)
            = chop ((u ++ [c]) ++ sep c t ++ sqz_loop None false t)).
  { intros t Ht Hst.
    rewrite sqzdup_eq, (cstr_id _ (Hnall t Ht)), Ha'.
    rewrite sqz_loop_app by assumption.
    now rewrite Hu, sqz_loop_run by assumption. }
  split; [|split].
  - intros Hbne. rewrite (Hall b Hnb Hb), HL.
    rewrite (sqzdup_eq b), (cstr_id _ Hnb), (skip_space_id b Hb).
    rewrite app_assoc, chop_app, <- app_assoc; [reflexivity|].
    destruct b as [|c' b']; [congruence|].
    unfold starts_nonspace in Hb. simpl in Hb. simpl. now rewrite Hb.
  - specialize (Hall [] (fun H => H) eq_refl).
    rewrite app_nil_r in Hall. rewrite Hall, HL.
    unfold sep. simpl sqz_loop. rewrite app_nil_r.
    change (isalnum (peek [])) with false. rewrite orb_false_r.
    destruct (isalnum c).
    + rewrite chop_snoc. reflexivity.
    + rewrite app_nil_r, chop_snoc. now rewrite Hc.
  - intros x. apply sqzdup_nf.
Qed.

(** The rule at [it] and [is . ] with three characters of white space
    between them. *)
Lemma sqzdup_run_rule_witness :
  (lit "is . " <> [] ->
   sqzdup (lit "i" ++ "t"%char :: [SP; TAB; SP] ++ lit "is . ")
   = sqzdup (lit "i" ++ ["t"%char])
     ++ (if isalnum "t"%char || isalnum (peek (lit "is . ")) then [SP] else [])
     ++ sqzdup (lit "is . "))
  /\ sqzdup (lit "i" ++ "t"%char :: [SP; TAB; SP]) = sqzdup (lit "i" ++ ["t"%char])
  /\ (forall x, isspace (last (sqzdup x) NUL) = false).
Proof.
  apply (sqzdup_run_rule (lit "i") "t"%char [SP; TAB; SP] (lit "is . ")).
  - vm_compute. intros H. repeat (destruct H as [H|H]; [discriminate H|]).
    exact H.
  - reflexivity.
  - discriminate.
  - reflexivity.
  - reflexivity.
Defined.

(** C2, the claim as written: a blank with an alphanumeric character on one
    side only is kept. *)
Lemma sqzdup_keeps_one_sided_blank :
  isalnum "a"%char && isalnum "."%char = false
  /\ sqzdup (lit "a .") = lit "a ."
  /\ sqzdup (lit "a .")
     <> sqzdup (lit "a")
        ++ (if isalnum "a"%char && isalnum "."%char then [SP] else [])
        ++ sqzdup (lit ".").
Proof.
  split; [reflexivity|]. split; [reflexivity|]. vm_compute. discriminate.
Qed.

(** * The cursor *)

Lemma firstn_suffix {A} (a r : list A) :
  firstn (length (a ++ r) - length r) (a ++ r) = a.
Proof.
  rewrite length_app.
  replace (length a + length r - length r)%nat with (length a) by lia.
  rewrite firstn_app, Nat.sub_diag, firstn_all. simpl. apply app_nil_r.
Qed.

Lemma move_to_app st a rest :
  p st = a ++ rest ->
  move_to st rest
  = mkState (rev a ++ back st) rest (d st) (bline st) (bcode st) (bold st)
            (italics st) (stk st) (out st).
Proof.
  intros H. unfold move_to. now rewrite H, firstn_suffix.
Qed.

Lemma advance_app st a rest :
  p st = a ++ rest ->
  advance st (length a)
  = mkState (rev a ++ back st) rest (d st) (bline st) (bcode st) (bold st)
            (italics st) (stk st) (out st).
Proof.
  intros H. unfold advance.
  assert (E : skipn (length a) (p st) = rest).
  { rewrite H, skipn_app, Nat.sub_diag, skipn_all. reflexivity. }
  rewrite E. now apply move_to_app.
Qed.

Lemma dput_room buf s :
  (Z.of_nat (length buf) + Z.of_nat (length s) <= DEST_SIZE)%Z ->
  dput buf s = Some (buf ++ s).
Proof.
  intros H. unfold dput.
  destruct (Z.leb_spec (Z.of_nat (length buf) + Z.of_nat (length s)) DEST_SIZE);
    [reflexivity|lia].
Qed.

Lemma advance_1 st c r :
  p st = c :: r ->
  advance st 1
  = mkState (c :: back st) r (d st) (bline st) (bcode st) (bold st)
            (italics st) (stk st) (out st).
Proof. intros H. exact (advance_app st [c] r H). Qed.

Lemma advance_2 st c1 c2 r :
  p st = c1 :: c2 :: r ->
  advance st 2
  = mkState (c2 :: c1 :: back st) r (d st) (bline st) (bcode st) (bold st)
            (italics st) (stk st) (out st).
Proof. intros H. exact (advance_app st [c1; c2] r H). Qed.

Lemma with_bline_same st : with_bline st (bline st) = st.
Proof. now destruct st. Qed.

(** A character that opens no block reaches the in-line part, at the
    beginning of a line too. *)
Lemma step_falls mpack st c r :
  bcode st = false ->
  p st = c :: r ->
  Ascii.eqb c "\"%char = false ->
  Ascii.eqb c LF = false ->
  is_hash c = false ->
  is_bullet c = false ->
  isdigit c = false ->
  (bline st = true -> prefixb fence (c :: r) = false) ->
  step mpack st = step_inline mpack (with_bline st false).
Proof.
  intros Hcode Hp Hbs Hlf Hh Hbu Hd Hf. unfold step.
  rewrite Hcode, Hp. cbn [peek hd]. rewrite Hbs.
  destruct (bline st) eqn:Hb.
  - specialize (Hf eq_refl). unfold step_bol. cbn [with_bline p]. rewrite Hp. cbn [peek hd tl].
    fold (peek r). now rewrite Hlf, Hh, Hbu, andb_false_r, Hd, Hf.
  - rewrite <- Hb. now rewrite with_bline_same.
Qed.

Ltac st_simpl :=
  cbv [with_d with_bline with_bcode with_bold with_italics with_stk emit
       back p d bline bcode bold italics stk out bind continue fst snd].

(** C10.  Outside a code block, with room for one character in the
    buffer: when the text after [![] does not parse as the tail of a link
    (the first closing bracket, an opening parenthesis right after it, a
    later closing parenthesis), the iteration appends the bracket alone to
    the buffer, drops the exclamation mark and goes on after the bracket;
    a plain bracket that does not parse is copied and the scan goes on at
    the next character. *)
Theorem broken_link_copies_bracket (mpack : macropackage_t) (st : state)
    (rest : text) :
  bcode st = false ->
  link_parse rest = None ->
  (Z.of_nat (length (d st)) < DEST_SIZE)%Z ->
  (p st = "!"%char :: "["%char :: rest ->
   step mpack st
   = Running (mkState ("["%char :: "!"%char :: back st) rest
                      (d st ++ ["["%char]) false false (bold st) (italics st)
                      (stk st) (out st)))
  /\ (p st = "["%char :: rest ->
      step mpack st
      = Running (mkState ("["%char :: back st) rest
                         (d st ++ ["["%char]) false false (bold st)
                         (italics st) (stk st) (out st))).
Proof.
  intros Hcode Hlink Hroom. split; intros Hp.
  - rewrite (step_falls mpack st _ _ Hcode Hp) by (intros; reflexivity).
    destruct st as [bk p0 d0 bl bc bo it sk o]. st_simpl. cbn [d] in Hroom.
    cbn [p] in Hp. cbn [bcode] in Hcode. subst p0 bc.
    unfold step_inline. st_simpl.
    change (Ascii.eqb "!"%char LF) with false.
    change (is_star "!"%char) with false.
    change (Ascii.eqb "!"%char "`"%char) with false.
    change (Ascii.eqb "!"%char "["%char) with false.
    change (Ascii.eqb "!"%char "!"%char) with true.
    cbn [peek hd andb orb].
    change (Ascii.eqb "["%char "["%char) with true. cbv iota.
    rewrite (advance_1 _ "!"%char ("["%char :: rest)) by reflexivity.
    st_simpl. cbn [tl]. rewrite Hlink. cbn [peek hd].
    unfold do_put. st_simpl. rewrite dput_room by (simpl length; lia).
    st_simpl. now rewrite (advance_1 _ "["%char rest) by reflexivity.
  - rewrite (step_falls mpack st _ _ Hcode Hp) by (intros; reflexivity).
    destruct st as [bk p0 d0 bl bc bo it sk o]. st_simpl. cbn [d] in Hroom.
    cbn [p] in Hp. cbn [bcode] in Hcode. subst p0 bc.
    unfold step_inline. st_simpl.
    change (Ascii.eqb "["%char LF) with false.
    change (is_star "["%char) with false.
    change (Ascii.eqb "["%char "`"%char) with false.
    change (Ascii.eqb "["%char "["%char) with true.
    change (Ascii.eqb "["%char "!"%char) with false.
    cbn [andb orb]. cbv iota. st_simpl. cbn [tl]. rewrite Hlink.
    cbn [peek hd].
    unfold do_put. st_simpl. rewrite dput_room by (simpl length; lia).
    st_simpl. now rewrite (advance_1 _ "["%char rest) by reflexivity.
Qed.

(** The first iteration on the source [![a]b]. *)
Lemma broken_link_copies_bracket_witness :
  step mp_man (mkState [] (lit "![a]b") [] true false false false stack0 [])
  = Running (mkState (lit "[!") (lit "a]b") (lit "[") false false false false
                     stack0 []).
Proof.
  exact (proj1 (broken_link_copies_bracket mp_man
                  (mkState [] (lit "![a]b") [] true false false false stack0 [])
                  (lit "a]b") eq_refl eq_refl eq_refl) eq_refl).
Defined.

(** * Splitting at a character *)

Lemma split_at_spec c s : forall a b,
  split_at c s = Some (a, b) -> s = a ++ c :: b /\ ~ In c a.
Proof.
  induction s as [|x r IH]; simpl; intros a b H; [discriminate|].
  destruct (Ascii.eqb x c) eqn:E.
  - apply Ascii.eqb_eq in E. inversion H. subst. split; [reflexivity|tauto].
  - destruct (split_at c r) as [[a' b']|]; [|discriminate].
    inversion H. subst. destruct (IH a' b eq_refl) as [-> Hn]. split.
    + reflexivity.
    + intros [Hx|Hin]; [|tauto]. subst x. now rewrite Ascii.eqb_refl in E.
Qed.

Lemma split_at_intro c a b : ~ In c a -> split_at c (a ++ c :: b) = Some (a, b).
Proof.
  induction a as [|x a IH]; simpl; intros H.
  - now rewrite Ascii.eqb_refl.
  - destruct (Ascii.eqb x c) eqn:E.
    + apply Ascii.eqb_eq in E. tauto.
    + rewrite IH by tauto. reflexivity.
Qed.

Lemma split_at_none c s : ~ In c s -> split_at c s = None.
Proof.
  induction s as [|x r IH]; simpl; intros H; [reflexivity|].
  destruct (Ascii.eqb x c) eqn:E.
  - apply Ascii.eqb_eq in E. tauto.
  - rewrite IH by tauto. reflexivity.
Qed.


Lemma split_last_none c s : ~ In c s -> split_last c s = None.
Proof.
  induction s as [|x r IH]; simpl; intros H; [reflexivity|].
  rewrite IH by tauto. destruct (Ascii.eqb x c) eqn:E; [|reflexivity].
  apply Ascii.eqb_eq in E. tauto.
Qed.

Lemma split_last_intro c a b :
  ~ In c b -> split_last c (a ++ c :: b) = Some (a, b).
Proof.
  intros Hb. induction a as [|x a IH]; simpl.
  - rewrite split_last_none by assumption. now rewrite Ascii.eqb_refl.
  - now rewrite IH.
Qed.

Lemma println_line t rest :
  ~ In LF t -> println (t ++ LF :: rest) = (t ++ [LF], rest).
Proof.
  induction t as [|x t IH]; simpl; intros H; [reflexivity|].
  destruct (Ascii.eqb x LF) eqn:E.
  - apply Ascii.eqb_eq in E. tauto.
  - rewrite IH by tauto. reflexivity.
Qed.

(** A tail that holds no bracket followed by an opening parenthesis and a
    later closing one does not parse. *)
Lemma link_parse_none rest :
  (forall a b c, rest <> a ++ "]"%char :: "("%char :: b ++ ")"%char :: c) ->
  link_parse rest = None.
Proof.
  intros H. unfold link_parse.
  destruct (split_at "]"%char rest) as [[label after]|] eqn:E1; [|reflexivity].
  destruct after as [|c after]; [reflexivity|].
  destruct (Ascii.eqb c "("%char) eqn:Ec; [|reflexivity].
  destruct (split_at ")"%char after) as [[target r]|] eqn:E2; [|reflexivity].
  apply Ascii.eqb_eq in Ec. subst c.
  apply split_at_spec in E1. apply split_at_spec in E2.
  destruct E1 as [E1 _]. destruct E2 as [E2 _]. subst.
  exfalso. now apply (H label target r).
Qed.







Lemma roff_new_sh mpack s :
  roff mpack new_sh [] s = Some (s, roff_text mpack new_sh).
Proof. now destruct mpack. Qed.

Lemma roff_new_ss mpack s :
  roff mpack new_ss [] s = Some (s, roff_text mpack new_ss).
Proof. now destruct mpack. Qed.


Lemma flushln_cons x xs :
  (Z.of_nat (length (x :: xs)) < DEST_SIZE)%Z ->
  flushln (x :: xs) = Some (flush_text (x :: xs)).
Proof.
  intros H. unfold flushln.
  destruct (Z.ltb_spec (Z.of_nat (length (x :: xs))) DEST_SIZE); [reflexivity|lia].
Qed.

(** C4, as amended.  In line and outside a code block, a newline followed
    by three equal signs, dashes or stars starts a ruler that runs to the
    next newline, whatever follows the three characters.  With an empty
    buffer the ruler is skipped and nothing is written.  With a non-empty
    buffer the last line of the buffer (the text after its last newline
    character, or the whole buffer squeezed when it holds none) is written
    as a major section header after the text before it, the buffer is
    emptied and the ruler dropped. *)
Theorem setext_rule (mpack : macropackage_t) (st : state)
    (r ruleline rest : text) :
  bcode st = false -> bline st = false ->
  p st = LF :: r -> is_rule r = true ->
  r = ruleline ++ LF :: rest -> ~ In LF ruleline ->
  (d st = [] ->
   step mpack st
   = Running (mkState (rev (LF :: ruleline ++ [LF]) ++ back st) rest []
                      false false (bold st) (italics st) (stk st) (out st)))
  /\ (d st <> [] -> (Z.of_nat (length (d st)) < DEST_SIZE)%Z ->
      (forall a b,
         cstr (d st) = a ++ LF :: b -> ~ In LF b ->
         step mpack st
         = Running (mkState (rev (LF :: ruleline ++ [LF]) ++ back st) rest []
                      false false (bold st) (italics st) (stk st)
                      (out st ++ match a with [] => [] | _ => puts a end
                       ++ roff_text mpack new_sh ++ b ++ [LF])))
      /\ (~ In LF (cstr (d st)) ->
          step mpack st
          = Running (mkState (rev (LF :: ruleline ++ [LF]) ++ back st) rest []
                       false false (bold st) (italics st) (stk st)
                       (out st ++ roff_text mpack new_sh
                        ++ flush_text (d st))))).
Proof.
  intros Hcode Hline Hp Hrule Hr Hno.
  assert (Hstep : step mpack st = step_inline mpack st).
  { unfold step. now rewrite Hcode, Hp, Hline. }
  rewrite Hstep. clear Hstep.
  destruct st as [bk p0 d0 bl bc bo it sk o]. st_simpl.
  cbn [p] in Hp. cbn [bcode] in Hcode. cbn [bline] in Hline.
  subst p0 bc bl.
  assert (Hmove : forall dd oo,
    move_to (mkState bk (LF :: r) dd false false bo it sk oo) rest
    = mkState (rev (LF :: ruleline ++ [LF]) ++ bk) rest dd false false bo it
              sk oo).
  { intros dd oo. rewrite (move_to_app _ (LF :: ruleline ++ [LF]) rest);
      [reflexivity|].
    st_simpl. subst r. simpl. now rewrite <- app_assoc. }
  assert (Hsplit : split_at LF r = Some (ruleline, rest)).
  { subst r. now apply split_at_intro. }
  split.
  - intros Hd. subst d0. unfold step_inline. st_simpl.
    change (Ascii.eqb LF LF) with true. cbv iota.
    rewrite Hrule, Hsplit. now rewrite Hmove.
  - intros Hd Hroom.
    assert (Hin : step_inline mpack (mkState bk (LF :: r) d0 false false bo it sk o)
                  = continue (setext mpack
                      (mkState (rev (LF :: ruleline ++ [LF]) ++ bk) rest d0
                               false false bo it sk o))).
    { unfold step_inline. st_simpl.
      change (Ascii.eqb LF LF) with true. cbv iota.
      rewrite Hrule, Hsplit.
      destruct d0 as [|x xs]; [congruence|]. now rewrite Hmove. }
    rewrite Hin. clear Hin. unfold setext. st_simpl.
    destruct (Z.ltb_spec (Z.of_nat (length d0)) DEST_SIZE) as [_|Hge]; [|lia].
    split.
    + intros a b Hab Hb. rewrite Hab, split_last_intro by assumption.
      unfold do_roff. st_simpl. rewrite roff_new_sh. st_simpl.
      cbn [fst snd]. now rewrite <- !app_assoc.
    + intros Hn. rewrite split_last_none by assumption.
      unfold do_roff. st_simpl. rewrite roff_new_sh. st_simpl.
      cbn [fst snd]. unfold do_flush. st_simpl.
      destruct d0 as [|x xs]; [congruence|].
      rewrite flushln_cons by assumption. st_simpl.
      now rewrite <- !app_assoc.
Qed.

(** * Runs of characters *)

Lemma skip_while_run f ws y :
  forallb f ws = true -> f (peek y) = false -> skip_while f (ws ++ y) = y.
Proof.
  intros Hws Hy. induction ws as [|w ws IH]; simpl.
  - destruct y as [|c y]; [reflexivity|]. simpl in Hy. simpl. now rewrite Hy.
  - simpl in Hws. apply andb_true_iff in Hws. destruct Hws as [Hw Hws].
    rewrite Hw. auto.
Qed.

Lemma take_while_run f ws y :
  forallb f ws = true -> f (peek y) = false -> take_while f (ws ++ y) = ws.
Proof.
  intros Hws Hy. induction ws as [|w ws IH]; simpl.
  - destruct y as [|c y]; [reflexivity|]. simpl in Hy. simpl. now rewrite Hy.
  - simpl in Hws. apply andb_true_iff in Hws. destruct Hws as [Hw Hws].
    rewrite Hw. f_equal. auto.
Qed.

Lemma hashes_all n : forallb is_hash (repeat "#"%char n) = true.
Proof. induction n; simpl; auto. Qed.

Lemma forallb_not_In f (c : ascii) ws :
  forallb f ws = true -> f c = false -> ~ In c ws.
Proof.
  intros H Hc Hin. rewrite forallb_forall in H. specialize (H _ Hin). congruence.
Qed.

Lemma do_flush_some st fl :
  flushln (d st) = Some fl ->
  do_flush st = Some (emit (with_d st []) fl).
Proof. intros H. unfold do_flush. now rewrite H. Qed.


(** * Ordered list items in the man dialect *)

Lemma roff_ol_open_man x l y c :
  roff mp_man ol_open [] (mkStack (x :: l) (y :: c) 0)
  = Some (mkStack (ol :: l) (1%Z :: c) 1, []).
Proof. reflexivity. Qed.

Lemma roff_li_open_man_ol l n c :
  (n < INT_MAX)%Z ->
  roff mp_man li_open [] (mkStack (ol :: l) (n :: c) 1)
  = Some (mkStack (ol :: l) ((n + 1)%Z :: c) 1,
          lit ".IP " ++ fmt_d n ++ lit ". 4" ++ [LF]).
Proof.
  intros H. unfold roff. cbn [stk_list_p stk_list stk_count].
  change (1 =? 0)%Z with false. cbv iota.
  change (arr_get (ol :: l) (1 - 1)) with (Some ol).
  cbn [is_ul]. change (arr_get (n :: c) (1 - 1)) with (Some n).
  cbv iota. destruct (Z.ltb_spec n INT_MAX) as [_|Hge]; [|lia].
  reflexivity.
Qed.

Lemma isdigit_plain c :
  isdigit c = true ->
  Ascii.eqb c "\"%char = false /\ Ascii.eqb c LF = false
  /\ is_hash c = false /\ is_bullet c = false
  /\ Ascii.eqb c "."%char = false.
Proof.
  intros H.
  assert (G : forall x, isdigit x = false -> Ascii.eqb c x = false).
  { intros x Hx. destruct (Ascii.eqb c x) eqn:E; [|reflexivity].
    apply Ascii.eqb_eq in E. congruence. }
  unfold is_hash, is_bullet. now rewrite !G by reflexivity.
Qed.

(** C1, as amended.  In the man dialect, at the beginning of a line
    outside a code block, a marker of at most 15 digits with a value below
    [INT_MAX] and a dot after it stores its own value in the counter of the
    list, on the first item of a list and on every later one alike, and the
    item renders with that value; the counter is left at the value plus
    one. *)
Theorem ordered_item_own_number (st : state) (num rest fl : text) :
  bcode st = false -> bline st = true ->
  p st = num ++ "."%char :: rest ->
  num <> [] -> forallb isdigit num = true -> (length num <= 15)%nat ->
  (atoi num < INT_MAX)%Z ->
  flushln (d st) = Some fl ->
  length (stk_list (stk st)) = 32%nat ->
  length (stk_count (stk st)) = 32%nat ->
  (stk_list_p (stk st) = 0%Z
   \/ (stk_list_p (stk st) = 1%Z
       /\ nth_error (stk_list (stk st)) 0 = Some ol)) ->
  exists st',
    step mp_man st = Running st'
    /\ out st'
       = out st ++ fl ++ lit ".IP " ++ fmt_d (atoi num) ++ lit ". 4" ++ [LF]
    /\ stk_list_p (stk st') = 1%Z
    /\ nth_error (stk_count (stk st')) 0 = Some (atoi num + 1)%Z
    /\ p st' = skip_while isblank rest
    /\ d st' = [].
Proof.
  intros Hcode Hline Hp Hne Hdig Hlen Hmax Hfl Hl Hc Hsp.
  destruct st as [bk p0 d0 bl bc bo it [l c sp0] o].
  cbn [p] in Hp. cbn [bcode] in Hcode. cbn [bline] in Hline.
  cbn [d] in Hfl. cbn [stk stk_list stk_count stk_list_p] in Hl, Hc, Hsp.
  subst bc bl. st_simpl.
  destruct l as [|x l]; [discriminate|]. destruct c as [|y c]; [discriminate|].
  clear Hl Hc.
  destruct num as [|c0 num']; [congruence|].
  assert (Hc0 : isdigit c0 = true).
  { simpl in Hdig. now apply andb_true_iff in Hdig. }
  destruct (isdigit_plain c0 Hc0) as (E1 & E2 & E3 & E4 & _).
  set (num := c0 :: num') in *.
  assert (Htake : take_while isdigit p0 = num).
  { subst p0. now apply take_while_run. }
  assert (Hskip : skip_while isdigit p0 = "."%char :: rest).
  { subst p0. now apply skip_while_run. }
  assert (Hbol : step mp_man (mkState bk p0 d0 true false bo it (mkStack (x :: l) (y :: c) sp0) o)
                 = match bol_ol mp_man (mkState bk p0 d0 false false bo it (mkStack (x :: l) (y :: c) sp0) o) with
                   | Done o' => o'
                   | Fall st' => step_inline mp_man st'
                   end).
  { unfold step. st_simpl. rewrite Hp. subst num. cbn [app peek hd].
    rewrite E1. unfold step_bol. st_simpl. cbn [app peek hd tl].
    now rewrite E2, E3, E4, andb_false_r, Hc0. }
  rewrite Hbol. clear Hbol. unfold bol_ol. st_simpl. rewrite Htake, Hskip.
  destruct (Nat.ltb_spec 15 (length num)) as [Hgt|_]; [lia|].
  cbn [peek hd]. change (Ascii.eqb "."%char "."%char) with true. cbv iota.
  rewrite (move_to_app _ num ("."%char :: rest)) by exact Hp. st_simpl.
  rewrite (do_flush_some _ fl) by exact Hfl. st_simpl.
  assert (Hseed : forall b' dd oo m,
    seed num (mkState b' ("."%char :: rest) dd false false bo it
                      (mkStack (ol :: l) (m :: c) 1) oo)
    = Some (mkState b' ("."%char :: rest) dd false false bo it
                    (mkStack (ol :: l) (atoi num :: c) 1) oo)).
  { intros b' dd oo m. unfold seed. st_simpl.
    destruct (Z.leb_spec (atoi num) INT_MAX) as [_|Hgt]; [|lia].
    reflexivity. }
  assert (Hfin : forall b' oo,
    move_to (mkState b' ("."%char :: rest) [] false false bo it
                     (mkStack (ol :: l) ((atoi num + 1)%Z :: c) 1) oo)
            (skip_while isblank rest)
    = mkState (rev (firstn (length ("."%char :: rest)
                            - length (skip_while isblank rest))
                           ("."%char :: rest)) ++ b')
              (skip_while isblank rest) [] false false bo it
              (mkStack (ol :: l) ((atoi num + 1)%Z :: c) 1) oo).
  { reflexivity. }
  destruct Hsp as [Hsp|[Hsp Htop]]; subst sp0.
  - cbn [stk_list_p]. change (0 =? 0)%Z with true. cbv iota. unfold do_roff. st_simpl.
    rewrite roff_ol_open_man. st_simpl.
    rewrite Hseed. st_simpl. rewrite roff_li_open_man_ol by exact Hmax. st_simpl.
    cbn [tl]. rewrite Hfin. eexists. split; [reflexivity|]. st_simpl.
    cbn [stk_list_p stk_count nth_error].
    rewrite app_nil_r, <- !app_assoc. auto.
  - cbn [stk_list_p]. change (1 =? 0)%Z with false. cbv iota. unfold do_roff. st_simpl.
    change (roff mp_man li_end [] (mkStack (x :: l) (y :: c) 1))
      with (Some (mkStack (x :: l) (y :: c) 1, @nil ascii)).
    st_simpl. cbn [nth_error] in Htop. injection Htop as ->.
    rewrite Hseed. st_simpl. rewrite roff_li_open_man_ol by exact Hmax. st_simpl.
    cbn [tl]. rewrite Hfin. eexists. split; [reflexivity|]. st_simpl.
    cbn [stk_list_p stk_count nth_error].
    rewrite app_nil_r, <- !app_assoc. auto.
Qed.

(** * What one iteration changes *)

Lemma ext_refl a : ext a a.
Proof. exists []. now rewrite app_nil_r. Qed.

Lemma ext_app a t : ext a (a ++ t).
Proof. now exists t. Qed.

Lemma ext_trans a b c : ext a b -> ext b c -> ext a c.
Proof.
  intros [t ->] [u ->]. exists (t ++ u). now rewrite app_assoc.
Qed.

Lemma push_p kind s s' :
  push kind s = Some s' -> stk_list_p s' = (stk_list_p s + 1)%Z.
Proof.
  unfold push. destruct (arr_set _ _ _); [|discriminate].
  destruct (arr_set _ _ _); [|discriminate].
  intros H. now inversion H.
Qed.

Lemma roff_delta mpack type args s s' t :
  roff mpack type args s = Some (s', t) ->
  stk_list_p s' = (stk_list_p s + delta type)%Z.
Proof.
  unfold roff. intros H.
  repeat match type of H with
         | context [match ?x with _ => _ end] => destruct x eqn:?
         end;
    inversion H; subst;
    try match goal with
        | Hq : push _ _ = Some _ |- _ => apply push_p in Hq
        end;
    cbn [stk_list_p delta]; lia.
Qed.

Lemma do_roff_same mpack type args st st' :
  do_roff mpack type args st = Some st' -> same_pos (delta type) st st'.
Proof.
  unfold do_roff. destruct (roff mpack type args (stk st)) as [[s' t]|] eqn:E;
    [|discriminate].
  intros H. inversion H. subst st'. clear H. unfold same_pos, sp. st_simpl.
  repeat split; [apply ext_app|]. now apply roff_delta in E.
Qed.

Lemma do_flush_same st st' : do_flush st = Some st' -> same_pos 0 st st'.
Proof.
  unfold do_flush. destruct (flushln (d st)); [|discriminate].
  intros H. inversion H. subst st'. unfold same_pos, sp. st_simpl.
  repeat split; [apply ext_app|lia].
Qed.

Lemma do_put_same s st st' : do_put s st = Some st' -> same_pos 0 st st'.
Proof.
  unfold do_put. destruct (dput (d st) s); [|discriminate].
  intros H. inversion H. subst st'. unfold same_pos, sp. st_simpl.
  repeat split; [apply ext_refl|lia].
Qed.

Lemma seed_same num st st' : seed num st = Some st' -> same_pos 0 st st'.
Proof.
  unfold seed. destruct (_ <=? _)%Z; [|discriminate].
  destruct (arr_set _ _ _); [|discriminate].
  intros H. inversion H. subst st'. unfold same_pos, sp. st_simpl.
  cbn [stk_list_p]. repeat split; [apply ext_refl|lia].
Qed.

(** ** Lengths of the rest of the source *)

Lemma println_length s : (length (snd (println s)) <= length s)%nat.
Proof.
  induction s as [|c r IH]; simpl; [lia|].
  destruct (Ascii.eqb c LF); simpl; [lia|].
  destruct (println r). simpl in *. lia.
Qed.

Lemma println_shorter c r : (length (snd (println (c :: r))) < length (c :: r))%nat.
Proof.
  simpl. destruct (Ascii.eqb c LF); simpl; [lia|].
  pose proof (println_length r). destruct (println r). simpl in *. lia.
Qed.

Lemma skip_while_length f s : (length (skip_while f s) <= length s)%nat.
Proof.
  induction s as [|c r IH]; simpl; [lia|]. destruct (f c); simpl; lia.
Qed.

Lemma split_at_length c s a b :
  split_at c s = Some (a, b) -> (length b < length s)%nat.
Proof.
  intros H. apply split_at_spec in H. destruct H as [-> _].
  rewrite length_app. simpl. lia.
Qed.

Lemma link_parse_length s a b c :
  link_parse s = Some (a, b, c) -> (length c < length s)%nat.
Proof.
  unfold link_parse.
  destruct (split_at "]"%char s) as [[label [|x after]]|] eqn:E1; try discriminate.
  destruct (Ascii.eqb x "("%char); [|discriminate].
  destruct (split_at ")"%char after) as [[target r]|] eqn:E2; [|discriminate].
  intros H. inversion H. subst.
  apply split_at_length in E1, E2. simpl in E1. lia.
Qed.

Lemma p_do_println st : p (do_println st) = snd (println (p st)).
Proof. unfold do_println. now destruct (println (p st)). Qed.

Lemma out_do_println st : out (do_println st) = out st ++ fst (println (p st)).
Proof. unfold do_println. now destruct (println (p st)). Qed.

Lemma stk_do_println st : stk (do_println st) = stk st.
Proof. unfold do_println. now destruct (println (p st)). Qed.

Lemma prefixb_length pre s :
  prefixb pre s = true -> (length pre <= length s)%nat.
Proof.
  revert s. induction pre as [|x pre IH]; intros [|y s]; simpl; try lia;
    try discriminate.
  intros H. apply andb_true_iff in H. destruct H as [_ H].
  apply IH in H. lia.
Qed.

Ltac inv_opt :=
  repeat match goal with
    | H : continue ?m = Running _ |- _ =>
        destruct m eqn:?; [cbn [continue] in H; injection H as <-
                          |discriminate H]
    | H : bind ?m _ = Some _ |- _ =>
        destruct m eqn:?; [cbn [bind] in H|discriminate H]
    | H : Some _ = Some _ |- _ => injection H as <-
    | H : (if ?b then _ else _) = Some _ |- _ => destruct b eqn:?
    | H : (let '(_, _) := ?x in _) = Some _ |- _ => destruct x eqn:?
    | H : None = Some _ |- _ => discriminate H
    end.

Ltac facts :=
  repeat match goal with
    | H : do_flush _ = Some _ |- _ =>
        apply do_flush_same in H; destruct H as (? & ? & ?)
    | H : do_put _ _ = Some _ |- _ =>
        apply do_put_same in H; destruct H as (? & ? & ?)
    | H : do_roff _ _ _ _ = Some _ |- _ =>
        apply do_roff_same in H; destruct H as (? & ? & ?)
    | H : seed _ _ = Some _ |- _ =>
        apply seed_same in H; destruct H as (? & ? & ?)
    end.

Ltac proj1 :=
  unfold sp, advance, move_to in *;
  cbn [with_d with_bline with_bcode with_bold with_italics with_stk emit
       back p d bline bcode bold italics stk out delta pop stk_list_p] in *;
  rewrite ?p_do_println, ?out_do_println, ?stk_do_println in *.

Ltac proj := proj1; proj1; proj1.

Ltac split_states :=
  repeat match goal with s : state |- _ => destruct s end.

Ltac ext_tac :=
  repeat match goal with
    | H : ext _ _ |- _ => destruct H as [? H]
    end;
  subst;
  first [apply ext_refl
        |unfold ext; eexists; rewrite <- ?app_assoc; reflexivity].

Ltac use_println :=
  repeat match goal with
    | H : println (?c :: ?r) = (_, _) |- _ =>
        let L := fresh "L" in
        pose proof (println_shorter c r) as L; rewrite H in L;
        cbn [snd] in L; revert H
    | H : println ?s = (_, _) |- _ =>
        let L := fresh "L" in
        pose proof (println_length s) as L; rewrite H in L;
        cbn [snd] in L; revert H
    end; intros.

(** The facts of the calls in the context, in terms of the fields of the
    states. *)
Ltac prep :=
  facts; split_states; unfold progress, sp; proj;
  repeat match goal with
    | H : ext _ _ |- _ => destruct H as [? H]
    end;
  subst; use_println.

Ltac crush :=
  prep;
  repeat split;
  [rewrite ?length_skipn; simpl length in *; try lia
  |try ext_tac
  |try lia].

Ltac fin := repeat split; try lia; try ext_tac.

Lemma step_code_progress mpack st st' :
  p st <> [] -> step_code mpack st = Running st' -> progress 1 0 st st'.
Proof.
  intros Hne H. unfold step_code in H. inv_opt.
  - apply prefixb_length in Heqb. crush.
  - destruct st as [bk [|c r] d0 bl bc bo it sk o]; [now elim Hne|].
    destruct (Ascii.eqb _ _); crush.
Qed.

Lemma step_escape_progress st st' :
  step_escape st = Running st' -> progress 1 0 st st'.
Proof.
  unfold step_escape. destruct (p st) as [|c0 [|c1 r]] eqn:Hp; try discriminate.
  intros H. inv_opt. crush.
Qed.

Lemma bol_blank_progress mpack st st' :
  p st <> [] -> bol_blank mpack st = Some st' ->
  exists k, progress 1 k st st' /\ allowed k st.
Proof.
  intros Hne H. unfold bol_blank in H.
  destruct st as [bk [|c r] d0 bl bc bo it sk o]; [now elim Hne|].
  inv_opt.
  - exists 0%Z. split; [crush|now left].
  - exists (-1)%Z. split; [crush|].
    right. right. split; [reflexivity|].
    apply Z.eqb_neq in Heqb. facts. proj. unfold sp. cbn [stk]. lia.
Qed.

Lemma bol_ul_progress mpack st st' :
  p st <> [] -> bol_ul mpack st = Some st' ->
  exists k, progress 1 k st st' /\ allowed k st.
Proof.
  intros Hne H. unfold bol_ul in H.
  destruct st as [bk [|c r] d0 bl bc bo it sk o]; [now elim Hne|].
  inv_opt.
  - exists 1%Z. split; [crush|].
    right. left. split; [reflexivity|].
    apply Z.eqb_eq in Heqb. facts. proj. unfold sp. cbn [stk]. lia.
  - exists 0%Z. split; [crush|now left].
Qed.

Lemma bol_fence_progress mpack st st' :
  prefixb fence (p st) = true -> bol_fence mpack st = Some st' ->
  progress 1 0 st st'.
Proof.
  intros Hf H. unfold bol_fence in H. apply prefixb_length in Hf.
  inv_opt. crush.
Qed.

Lemma setext_progress mpack st st' :
  setext mpack st = Some st' -> progress 0 0 st st'.
Proof.
  intros H. unfold setext in H.
  destruct (_ <? _)%Z; [|discriminate].
  destruct (split_last _ _) as [[a b]|]; inv_opt; crush.
Qed.

Lemma skip_title_shorter s :
  is_hash (peek s) = true ->
  (length (skip_while isblank (skip_while is_hash s)) < length s)%nat.
Proof.
  destruct s as [|c r]; [discriminate|]. simpl. intros ->.
  pose proof (skip_while_length isblank (skip_while is_hash r)).
  pose proof (skip_while_length is_hash r). simpl. lia.
Qed.

Lemma bol_header_progress mpack st :
  is_hash (peek (p st)) = true ->
  match bol_header mpack st with
  | Fall st' => progress 0 0 st st'
  | Done (Running st') => progress 1 0 st st'
  | Done _ => True
  end.
Proof.
  intros Hh. unfold bol_header.
  destruct (do_flush st) as [st1|] eqn:E1; [|exact I].
  destruct (split_at LF (p st1)) as [[line rest]|] eqn:E2; [|crush].
  assert (Hp1 : p st1 = p st) by (now destruct (do_flush_same _ _ E1)).
  pose proof (skip_title_shorter (p st) Hh) as Hlt.
  pose proof (println_length (skip_while isblank (skip_while is_hash (p st))))
    as Hpl.
  rewrite Hp1 in *. clear E2.
  destruct (negb _).
  - destruct (length (take_while _ _)) as [|[|[|[|n]]]].
    + destruct (is_man mpack).
      * prep. fin.
      * destruct (do_roff _ _ _ _) eqn:E3; [|exact I]. cbn [continue].
        prep. fin.
    + destruct (do_roff _ _ _ _) eqn:E3; [|exact I].
      prep. fin.
    + destruct (do_roff _ _ _ _) eqn:E3; [|exact I].
      prep. fin.
    + destruct (do_roff _ _ _ _) eqn:E3; [|exact I].
      prep. fin.
    + destruct (is_man mpack).
      * prep. fin.
      * destruct (do_roff _ _ _ _) eqn:E3; [|exact I]. cbn [continue].
        prep. fin.
  - destruct (do_roff mpack box_open [] st1) as [a|] eqn:E3; [|exact I].
    cbn [bind]. destruct (do_roff mpack ln_brk [] a) as [b|] eqn:E4; [|exact I].
    cbn [bind].
    destruct (do_roff mpack ln_brk [] (do_println b)) as [c|] eqn:E5; [|exact I].
    cbn [bind].
    destruct (do_roff mpack box_close [] c) as [e|] eqn:E6; [|exact I].
    cbn [continue].
    destruct (p st) as [|c0 r0] eqn:Hp0; [discriminate|].
    pose proof (println_shorter c0 r0) as Hsh.
    prep. simpl length in *. fin.
Qed.

Lemma progress_trans n1 k1 n2 k2 a b c :
  progress n1 k1 a b -> progress n2 k2 b c ->
  progress (n1 + n2) (k1 + k2) a c.
Proof.
  intros (P1 & O1 & S1) (P2 & O2 & S2). repeat split.
  - lia.
  - eapply ext_trans; eassumption.
  - lia.
Qed.

Lemma skip_digits_shorter s :
  isdigit (peek s) = true ->
  (length (skip_while isdigit s) < length s)%nat.
Proof.
  destruct s as [|c r]; [discriminate|]. simpl. intros ->.
  pose proof (skip_while_length isdigit r). lia.
Qed.

Lemma tl_length {A} (s : list A) : (length (tl s) <= length s)%nat.
Proof. destruct s; simpl; lia. Qed.

Lemma bol_ol_progress mpack st :
  isdigit (peek (p st)) = true ->
  match bol_ol mpack st with
  | Fall st' => st' = st
  | Done (Running st') => exists k, progress 1 k st st' /\ allowed k st
  | Done _ => True
  end.
Proof.
  intros Hd. unfold bol_ol.
  destruct (_ <? _)%nat; [exact I|].
  destruct (Ascii.eqb _ _); [|reflexivity].
  pose proof (skip_digits_shorter (p st) Hd) as Hlt.
  set (rest := skip_while isdigit (p st)) in *.
  destruct (do_flush (move_to st rest)) as [st1|] eqn:E1; [|exact I].
  cbn [bind].
  destruct (stk_list_p (stk st1) =? 0)%Z eqn:E0.
  - destruct (do_roff mpack ol_open [] st1) as [st2|] eqn:E2; [|exact I].
    cbn [bind]. destruct (seed _ st2) as [st3|] eqn:E3; [|exact I].
    cbn [bind]. destruct (do_roff mpack li_open [] st3) as [st4|] eqn:E4;
      [|exact I].
    cbn [bind continue]. exists 1%Z.
    pose proof (skip_while_length isblank (tl (p st4))) as L1.
    pose proof (tl_length (p st4)) as L2.
    apply Z.eqb_eq in E0. split.
    + prep. fin.
    + right. left. split; [reflexivity|]. prep. lia.
  - destruct (do_roff mpack li_end [] st1) as [st2|] eqn:E2; [|exact I].
    cbn [bind]. destruct (seed _ st2) as [st3|] eqn:E3; [|exact I].
    cbn [bind]. destruct (do_roff mpack li_open [] st3) as [st4|] eqn:E4;
      [|exact I].
    cbn [bind continue]. exists 0%Z.
    pose proof (skip_while_length isblank (tl (p st4))) as L1.
    pose proof (tl_length (p st4)) as L2.
    split; [|now left]. prep. fin.
Qed.

Lemma step_bol_progress mpack st :
  p st <> [] ->
  match step_bol mpack st with
  | Fall st' => progress 0 0 st st'
  | Done (Running st') => exists k, progress 1 k st st' /\ allowed k st
  | Done _ => True
  end.
Proof.
  intros Hne. unfold step_bol.
  destruct (Ascii.eqb _ LF).
  { destruct (bol_blank mpack _) as [st'|] eqn:E; [|exact I]. cbn [continue].
    apply bol_blank_progress in E; [|exact Hne].
    destruct E as (k & Hk & Ha). exists k. split; [|exact Ha].
    destruct st. exact Hk. }
  destruct (is_hash _) eqn:Eh.
  { pose proof (bol_header_progress mpack (with_bline st false) Eh) as H.
    destruct (bol_header mpack _) as [[st'| | |]|st']; try exact I.
    - exists 0%Z. split; [|now left]. destruct st. exact H.
    - destruct st. exact H. }
  destruct (_ && _).
  { destruct (bol_ul mpack _) as [st'|] eqn:E; [|exact I]. cbn [continue].
    apply bol_ul_progress in E; [|exact Hne].
    destruct E as (k & Hk & Ha). exists k. split; [|exact Ha].
    destruct st. exact Hk. }
  destruct (isdigit _) eqn:Ed.
  { pose proof (bol_ol_progress mpack (with_bline st false) Ed) as H.
    destruct (bol_ol mpack _) as [[st'| | |]|st']; try exact I.
    - destruct H as (k & Hk & Ha). exists k. split; [|exact Ha].
      destruct st. exact Hk.
    - subst st'. destruct st. unfold progress, sp. cbn.
      repeat split; [lia|apply ext_refl|lia]. }
  destruct (prefixb _ _) eqn:Ef.
  { destruct (bol_fence mpack _) as [st'|] eqn:E; [|exact I]. cbn [continue].
    apply bol_fence_progress in E; [|exact Ef].
    exists 0%Z. split; [|now left]. destruct st. exact E. }
  destruct st. unfold progress, sp. cbn.
      repeat split; [lia|apply ext_refl|lia].
Qed.

Lemma step_inline_progress mpack st st' :
  step_inline mpack st = Running st' -> progress 1 0 st st'.
Proof.
  unfold step_inline. destruct (p st) as [|c r] eqn:Hp; [discriminate|].
  destruct (Ascii.eqb c LF).
  { destruct (is_rule r).
    - destruct (split_at LF r) as [[rl rest]|] eqn:Es; [|discriminate].
      apply split_at_length in Es.
      destruct (d st).
      + intros H. injection H as <-. prep. simpl length. fin.
      + destruct (setext mpack _) as [s1|] eqn:E; [|discriminate].
        cbn [continue]. intros H. injection H as <-.
        destruct (setext_progress _ _ _ E) as (P1 & O1 & S1). clear E.
        prep. simpl length. fin.
    - intros H. inv_opt. crush. }
  destruct (is_star c && _).
  { intros H. inv_opt; crush. }
  destruct (is_star c).
  { intros H. inv_opt; crush. }
  destruct (Ascii.eqb c "`"%char).
  { destruct (split_at "`"%char r) as [[body rest]|] eqn:Es.
    - apply split_at_length in Es. intros H. inv_opt. prep.
      simpl length. fin.
    - destruct (do_put _ st); discriminate. }
  destruct (Ascii.eqb c "["%char || _) eqn:El.
  { destruct (Ascii.eqb c "!"%char) eqn:Eb.
    - destruct (link_parse _) as [[[l0 r0] rest]|] eqn:Ep.
      + apply link_parse_length in Ep. intros H.
        pose proof (tl_length (skipn 1 (c :: r))) as L.
        inv_opt; prep; simpl in *; fin.
      + intros H. inv_opt. prep.
        destruct r as [|c1 r1]; [simpl in El; rewrite orb_false_r in El;
          apply Ascii.eqb_eq in El, Eb; congruence|].
        simpl. fin.
    - destruct (link_parse _) as [[[l0 r0] rest]|] eqn:Ep.
      + apply link_parse_length in Ep. intros H.
        inv_opt; prep; simpl in *; fin.
      + intros H. inv_opt. crush. }
  intros H. inv_opt. crush.
Qed.

(** One iteration consumes a character of the source at least, only adds
    to the output, and moves the stack pointer by one at most. *)
Lemma step_progress mpack st st' :
  p st <> [] -> step mpack st = Running st' ->
  exists k, progress 1 k st st' /\ allowed k st.
Proof.
  intros Hne. unfold step. destruct (bcode st).
  { intros H. exists 0%Z. split; [|now left].
    now apply (step_code_progress mpack). }
  destruct (Ascii.eqb _ _).
  { intros H. exists 0%Z. split; [|now left].
    now apply step_escape_progress. }
  destruct (bline st).
  - pose proof (step_bol_progress mpack st Hne) as Hb.
    destruct (step_bol mpack st) as [o|st1].
    + intros ->. exact Hb.
    + intros H. apply step_inline_progress in H. exists 0%Z.
      split; [|now left]. exact (progress_trans _ _ _ _ _ _ _ Hb H).
  - intros H. exists 0%Z. split; [|now left].
    now apply (step_inline_progress mpack).
Qed.

(** * The whole loop *)

Lemma step_inline_stdout mpack st o t :
  step_inline mpack st = o -> (forall st', o <> Running st') ->
  stdout_of o = Some t -> t = out st.
Proof.
  intros H Hnr Ht. subst o. unfold step_inline in *.
  destruct (p st) as [|c r]; [discriminate|].
  repeat match type of Ht with
         | context [continue ?m] =>
             destruct m; cbn [continue] in *;
             [now elim (Hnr _ eq_refl)|discriminate]
         | context [match ?x with _ => _ end] => destruct x
         end;
    try discriminate; try (now elim (Hnr _ eq_refl));
    cbn [stdout_of] in Ht; congruence.
Qed.

Lemma done_continue_stdout m t :
  (forall st', continue m <> Running st') -> stdout_of (continue m) = Some t ->
  False.
Proof.
  destruct m; cbn [continue stdout_of]; intros Hnr H;
    [now elim (Hnr _ eq_refl)|discriminate].
Qed.

Lemma done_inv x o : Done x = Done o -> o = x.
Proof. intros H. now injection H. Qed.

Ltac done_case :=
  let H := fresh in
  intros H; apply done_inv in H; subst;
  first [apply done_continue_stdout
        |discriminate
        |let Hnr := fresh in intros Hnr; now elim (Hnr _ eq_refl)
        |intros _; discriminate].

Lemma step_bol_stdout mpack st o t :
  step_bol mpack st = Done o -> (forall st', o <> Running st') ->
  stdout_of o = Some t -> False.
Proof.
  unfold step_bol.
  destruct (Ascii.eqb _ LF); [done_case|].
  destruct (is_hash _).
  { unfold bol_header. destruct (do_flush _) as [st1|]; [|done_case].
    destruct (split_at LF (p st1)) as [[line ?]|]; [|discriminate].
    destruct (negb _); [|done_case].
    destruct (length _) as [|[|[|[|n]]]];
      try (destruct (do_roff _ _ _ _); [discriminate|done_case]);
      (destruct (is_man mpack); done_case). }
  destruct (_ && _); [done_case|].
  destruct (isdigit _).
  { unfold bol_ol. destruct (_ <? _)%nat; [done_case|].
    destruct (Ascii.eqb _ _); [done_case|discriminate]. }
  destruct (prefixb _ _); [done_case|discriminate].
Qed.

(** An iteration that ends the conversion leaves on [stdout] what was
    there, and more. *)
Lemma step_stdout mpack st o t :
  p st <> [] ->
  step mpack st = o -> (forall st', o <> Running st') ->
  stdout_of o = Some t -> ext (out st) t.
Proof.
  intros Hne H Hnr Ht. unfold step in H. destruct (bcode st).
  { unfold step_code in H. subst o. exfalso.
    now apply (done_continue_stdout _ _ Hnr Ht). }
  destruct (Ascii.eqb _ _).
  { unfold step_escape in H. subst o. exfalso.
    destruct (p st) as [|? [|? ?]]; try discriminate.
    now apply (done_continue_stdout _ _ Hnr Ht). }
  destruct (bline st).
  - pose proof (step_bol_progress mpack st Hne) as Hb.
    destruct (step_bol mpack st) as [o'|st1] eqn:Eb.
    + subst o'. exfalso. exact (step_bol_stdout _ _ _ _ Eb Hnr Ht).
    + rewrite (step_inline_stdout _ _ _ _ H Hnr Ht). now destruct Hb as (_ & Ho & _).
  - rewrite (step_inline_stdout _ _ _ _ H Hnr Ht). apply ext_refl.
Qed.

(** The loop ends with the fuel that [md2roff] gives it. *)
Lemma run_total mpack fuel : forall st,
  (length (p st) < fuel)%nat -> exists o, run mpack fuel st = Some o.
Proof.
  induction fuel as [|f IH]; intros st Hlt; [lia|].
  cbn [run]. destruct (p st) as [|c r] eqn:Hp; [eauto|].
  destruct (step mpack st) as [st'| | |] eqn:Es; eauto.
  apply IH.
  destruct (step_progress mpack st st') as (k & (Hl & _) & _);
    [congruence|exact Es|].
  rewrite Hp in Hl. simpl in *. lia.
Qed.

Lemma run_stdout mpack fuel : forall st o t,
  run mpack fuel st = Some o -> stdout_of o = Some t -> ext (out st) t.
Proof.
  induction fuel as [|f IH]; intros st o t H Ht; [discriminate|].
  cbn [run] in H. destruct (p st) as [|c r] eqn:Hp.
  - injection H as <-. destruct (do_flush st) as [st'|] eqn:E; [|discriminate].
    cbn [stdout_of] in Ht. injection Ht as <-.
    now destruct (do_flush_same _ _ E) as (_ & Ho & _).
  - destruct (step mpack st) as [st'| | |] eqn:Es.
    + destruct (step_progress mpack st st') as (k & (_ & Ho & _) & _);
        [congruence|exact Es|].
      eapply ext_trans; [exact Ho|]. eapply IH; eassumption.
    + injection H as <-.
      apply (step_stdout mpack st _ t ltac:(congruence) Es);
        [discriminate|exact Ht].
    + injection H as <-.
      apply (step_stdout mpack st _ t ltac:(congruence) Es);
        [discriminate|exact Ht].
    + injection H as <-. discriminate.
Qed.

Lemma md2roff_total mpack globals now docname source :
  exists o, md2roff mpack globals now docname source = Some o.
Proof. unfold md2roff. apply run_total. lia. Qed.

(** * The list stack *)

Lemma preamble_sp mpack docname now st :
  sp (preamble mpack docname now st) = sp st.
Proof.
  unfold preamble, sp. destruct mpack; cbn [is_man]; try reflexivity;
    destruct (_ && _); try reflexivity;
    now rewrite stk_do_println.
Qed.

Lemma reachable_depth mpack st0 st :
  reachable mpack st0 st -> (0 <= sp st0 <= 1)%Z -> (0 <= sp st <= 1)%Z.
Proof.
  induction 1 as [|st st' Hr IH Hne Hs]; intros H0; [exact H0|].
  specialize (IH H0).
  destruct (step_progress mpack st st' Hne Hs) as (k & (_ & _ & Hk) & Ha).
  unfold allowed in Ha. lia.
Qed.

(** C9.  The stack pointer is 0 at the entry of [md2roff]; in every state
    of the loop it is 0 or 1, below the capacity of 32; and an iteration
    leaves it as it is, pushes one list on the empty stack, or pops one
    list. *)
Theorem list_stack_depth (mpack : macropackage_t) (globals : lstack)
    (now : tm) (docname source : text) (st : state) :
  reachable mpack (preamble mpack (cstr docname) now (entry globals source)) st ->
  stk_list_p (stk (entry globals source)) = 0%Z
  /\ (0 <= stk_list_p (stk st) <= 1)%Z
  /\ (stk_list_p (stk st) < MAX_LIST_SIZE)%Z
  /\ (forall st',
        p st <> [] -> step mpack st = Running st' ->
        stk_list_p (stk st') = stk_list_p (stk st)
        \/ (stk_list_p (stk st) = 0 /\ stk_list_p (stk st') = 1)%Z
        \/ (stk_list_p (stk st) <> 0
            /\ stk_list_p (stk st') = stk_list_p (stk st) - 1)%Z).
Proof.
  intros Hr. split; [reflexivity|].
  assert (Hd : (0 <= sp st <= 1)%Z).
  { apply (reachable_depth _ _ _ Hr). rewrite preamble_sp. unfold sp.
    cbn. lia. }
  unfold sp in Hd. split; [exact Hd|]. split; [unfold MAX_LIST_SIZE; lia|].
  intros st' Hne Hs.
  destruct (step_progress mpack st st' Hne Hs) as (k & (_ & _ & Hk) & Ha).
  unfold allowed, sp in *. lia.
Qed.

(** * The header of the document *)

Lemma fmt_d_year n :
  (1000 <= n <= 9999)%Z ->
  length (fmt_d n) = 4%nat /\ forallb isdigit (fmt_d n) = true.
Proof.
  intros H.
  assert (A : forallb (fun k => (length (fmt_d (Z.of_nat k)) =? 4)%nat
                                && forallb isdigit (fmt_d (Z.of_nat k)))
                      (seq 1000 (90 * 100)) = true) by (vm_compute; reflexivity).
  rewrite forallb_forall in A. specialize (A (Z.to_nat n)).
  rewrite Z2Nat.id in A by lia.
  assert (I : In (Z.to_nat n) (seq 1000 (90 * 100))) by (apply in_seq; lia).
  apply A in I. apply andb_true_iff in I. destruct I as [I1 I2].
  apply Nat.eqb_eq in I1. auto.
Qed.

Lemma fmt_02d_two n :
  (1 <= n <= 31)%Z ->
  length (fmt_02d n) = 2%nat /\ forallb isdigit (fmt_02d n) = true.
Proof.
  intros H.
  assert (A : forallb (fun k => (length (fmt_02d (Z.of_nat k)) =? 2)%nat
                                && forallb isdigit (fmt_02d (Z.of_nat k)))
                      (seq 1 31) = true) by (vm_compute; reflexivity).
  rewrite forallb_forall in A. specialize (A (Z.to_nat n)).
  rewrite Z2Nat.id in A by lia.
  assert (I : In (Z.to_nat n) (seq 1 31)) by (apply in_seq; lia).
  apply A in I. apply andb_true_iff in I. destruct I as [I1 I2].
  apply Nat.eqb_eq in I1. auto.
Qed.

Lemma preamble_th_line st c rest :
  p st = "#"%char :: c :: rest ->
  do_println (advance (emit st (lit ".TH ")) 2)
  = mkState (rev (firstn (length rest - length (snd (println rest))) rest)
             ++ c :: "#"%char :: back st)
            (snd (println rest)) (d st) (bline st) (bcode st) (bold st)
            (italics st) (stk st)
            (out st ++ lit ".TH " ++ fst (println rest)).
Proof.
  intros Hp. rewrite (advance_2 _ "#"%char c rest) by exact Hp.
  unfold do_println. st_simpl. destruct (println rest) as [ln r'].
  unfold move_to. st_simpl. now rewrite <- app_assoc.
Qed.

Lemma println_all t : ~ In LF t -> println t = (t, []).
Proof.
  induction t as [|x t IH]; simpl; intros H; [reflexivity|].
  destruct (Ascii.eqb x LF) eqn:E.
  - apply Ascii.eqb_eq in E. tauto.
  - rewrite IH by tauto. reflexivity.
Qed.

(** C3, as amended.  In the man and mdoc dialects, when the source starts
    with a hash and a white space other than a newline, the preamble ends
    with [.TH] and the rest of the first line, up to its newline or to the
    end of the source; when the source does not start with a hash and a
    white space, it ends with [.TH], the document name, [7], the date as
    year, month and day, and [document]; the date has four, two and two
    digits for a year from 1000 to 9999.  The mm dialect writes its
    activation line only and the mom dialect a title of the document name
    and fixed lines: neither reads the first line nor the clock.  Whatever
    the conversion does next, stdout starts with that preamble. *)
Theorem header_directive (mpack : macropackage_t) (globals : lstack)
    (now : tm) (docname source : text) :
  let st0 := preamble mpack (cstr docname) now (entry globals source) in
  let activation :=
    match mpack with
    | mp_mdoc => lit ".do mso mdoc.tmac"
    | _ => lit ".do mso man.tmac"
    end in
  (mpack = mp_man \/ mpack = mp_mdoc ->
   (forall c title rest,
      cstr source = "#"%char :: c :: title ++ LF :: rest ->
      isspace c = true -> c <> LF -> ~ In LF title ->
      out st0 = comment_line ++ puts activation ++ lit ".TH "
                ++ title ++ [LF]
      /\ p st0 = rest)
   /\ (forall c title,
       cstr source = "#"%char :: c :: title ->
       isspace c = true -> c <> LF -> ~ In LF title ->
       out st0 = comment_line ++ puts activation ++ lit ".TH " ++ title
       /\ p st0 = [])
   /\ (is_hash (peek (cstr source)) && isspace (peek (tl (cstr source)))
       = false ->
       out st0 = comment_line ++ puts activation ++ lit ".TH "
                 ++ cstr docname ++ lit " 7 "
                 ++ fmt_d (tm_year now + 1900) ++ lit "-"
                 ++ fmt_02d (tm_mon now + 1) ++ lit "-"
                 ++ fmt_02d (tm_mday now) ++ lit " document" ++ [LF]
       /\ p st0 = cstr source))
  /\ (mpack = mp_mm ->
      out st0 = comment_line ++ puts (lit ".do mso m.tmac")
      /\ p st0 = cstr source)
  /\ (mpack = mp_mom ->
      out st0 = comment_line ++ puts (lit ".do mso mom.tmac")
                ++ lit ".TITLE " ++ [DQ] ++ cstr docname ++ [DQ; LF]
                ++ lit ".AUTHOR " ++ [DQ] ++ lit "md2roff" ++ [DQ; LF]
                ++ lit ".PAPER A4" ++ [LF]
                ++ lit ".PRINTSTYLE TYPESET" ++ [LF]
                ++ lit ".START" ++ [LF]
      /\ p st0 = cstr source)
  /\ (exists o,
        md2roff mpack globals now docname source = Some o
        /\ forall t, stdout_of o = Some t -> exists body, t = out st0 ++ body)
  /\ ((1000 <= tm_year now + 1900 <= 9999)%Z ->
      (0 <= tm_mon now <= 11)%Z -> (1 <= tm_mday now <= 31)%Z ->
      (length (fmt_d (tm_year now + 1900)) = 4
       /\ length (fmt_02d (tm_mon now + 1)) = 2
       /\ length (fmt_02d (tm_mday now)) = 2)%nat
      /\ forallb isdigit (fmt_d (tm_year now + 1900)
                          ++ fmt_02d (tm_mon now + 1)
                          ++ fmt_02d (tm_mday now)) = true).
Proof.
  intros st0 activation.
  split; [|split; [|split; [|split]]].
  - intros Hm.
    assert (Hth : forall c rest,
      cstr source = "#"%char :: c :: rest -> isspace c = true ->
      out st0 = comment_line ++ puts activation ++ lit ".TH "
                ++ fst (println rest)
      /\ p st0 = snd (println rest)).
    { intros c rest Hs Hc. subst st0 activation. unfold preamble.
      assert (E : is_hash (peek (cstr source))
                  && isspace (peek (tl (cstr source))) = true).
      { rewrite Hs. cbn [peek hd tl]. now rewrite Hc. }
      destruct Hm as [-> | ->]; cbn [is_man p emit entry]; rewrite E;
        rewrite (preamble_th_line _ c rest) by (cbn [p emit entry]; exact Hs);
        unfold entry; st_simpl; rewrite <- !app_assoc; auto. }
    split; [|split].
    + intros c title rest Hs Hc _ Hnl.
      destruct (Hth c _ Hs Hc) as [Ho Hp].
      rewrite println_line in Ho, Hp by exact Hnl. auto.
    + intros c title Hs Hc _ Hnl.
      destruct (Hth c _ Hs Hc) as [Ho Hp].
      rewrite println_all in Ho, Hp by exact Hnl. auto.
    + intros E. subst st0 activation. unfold preamble.
      destruct Hm as [-> | ->]; cbn [is_man p emit entry]; rewrite E;
        unfold th_today, entry; st_simpl; rewrite <- !app_assoc; auto.
  - intros ->. subst st0. unfold preamble, entry. st_simpl.
    rewrite <- !app_assoc. auto.
  - intros ->. subst st0. unfold preamble, entry. st_simpl.
    rewrite <- !app_assoc. auto.
  - destruct (md2roff_total mpack globals now docname source) as [o Ho].
    exists o. split; [exact Ho|]. intros t Ht.
    unfold md2roff in Ho. exact (run_stdout _ _ _ _ _ Ho Ht).
  - intros Hy Hmo Hd.
    destruct (fmt_d_year _ Hy) as [Y1 Y2].
    destruct (fmt_02d_two (tm_mon now + 1)) as [M1 M2]; [lia|].
    destruct (fmt_02d_two _ Hd) as [D1 D2].
    repeat split; try assumption.
    now rewrite !forallb_app, Y2, M2, D2.
Qed.

(** The second item of [1. first / 5. second]. *)
Lemma ordered_item_own_number_witness :
  exists st',
    step mp_man at_second_item = Running st'
    /\ out st'
       = out at_second_item ++ unlines ["first"] ++ lit ".IP "
         ++ fmt_d (atoi (lit "5")) ++ lit ". 4" ++ [LF]
    /\ stk_list_p (stk st') = 1%Z
    /\ nth_error (stk_count (stk st')) 0 = Some (atoi (lit "5") + 1)%Z
    /\ p st' = skip_while isblank (SP :: unlines ["second"])
    /\ d st' = [].
Proof.
  apply (ordered_item_own_number at_second_item (lit "5")
           (SP :: unlines ["second"]) (unlines ["first"])).
  - reflexivity.
  - reflexivity.
  - reflexivity.
  - discriminate.
  - reflexivity.
  - simpl. lia.
  - reflexivity.
  - reflexivity.
  - reflexivity.
  - reflexivity.
  - right. split; reflexivity.
Defined.

(** C1, the claim as written: the second item of [1. first / 5. second]
    renders with its own number 5, not with 2. *)
Lemma second_item_renders_literal_number :
  md2roff mp_man stack0 today (lit "doc") (unlines ["1. first"; "5. second"])
  = Some (Returned
            (comment_line
             ++ unlines [".do mso man.tmac"; ".TH doc 7 2026-10-30 document";
                         ".IP 1. 4"; "first"; ".IP 5. 4"; "second"]))
  /\ md2roff mp_man stack0 today (lit "doc")
       (unlines ["1. first"; "5. second"])
     <> Some (Returned
                (comment_line
                 ++ unlines [".do mso man.tmac";
                             ".TH doc 7 2026-10-30 document";
                             ".IP 1. 4"; "first"; ".IP 2. 4"; "second"])).
Proof.
  split; [vm_compute; reflexivity|]. vm_compute. discriminate.
Qed.

(** The header of a man page that starts with [# NAME 1]. *)
Lemma header_directive_witness :
  out (preamble mp_man (cstr (lit "doc")) today
         (entry stack0 (unlines ["# NAME 1"; "text"])))
  = comment_line ++ puts (lit ".do mso man.tmac") ++ lit ".TH "
    ++ lit "NAME 1" ++ [LF]
  /\ p (preamble mp_man (cstr (lit "doc")) today
          (entry stack0 (unlines ["# NAME 1"; "text"])))
     = unlines ["text"].
Proof.
  refine (proj1 (proj1 (header_directive mp_man stack0 today (lit "doc")
                          (unlines ["# NAME 1"; "text"]))
                       (or_introl eq_refl))
                SP (lit "NAME 1") (unlines ["text"]) eq_refl eq_refl _ _).
  - discriminate.
  - vm_compute. intros H. repeat (destruct H as [H|H]; [discriminate H|]).
    exact H.
Defined.

(** C3, the claim as written: in the mm dialect no header is made of the
    document name and the date, and in the man dialect a first line of a
    hash and a tab gives the header, which is not made of the date then. *)
Lemma header_directive_not_as_claimed :
  md2roff mp_mm stack0 today (lit "guide") (unlines ["text"])
  = Some (Returned (comment_line ++ unlines [".do mso m.tmac"; "text"]))
  /\ occurs (lit "guide") (comment_line ++ unlines [".do mso m.tmac"; "text"])
     = false
  /\ occurs (lit "2026-10-30")
       (comment_line ++ unlines [".do mso m.tmac"; "text"]) = false
  /\ md2roff mp_mm stack0 today (lit "guide") (unlines ["# T x"; ""; "text"])
     = Some (Returned (comment_line
                       ++ unlines [".do mso m.tmac"; ".SH T x"; "text"]))
  /\ md2roff mp_man stack0 today (lit "guide")
       ("#"%char :: TAB :: unlines ["NAME 1"; "text"])
     = Some (Returned (comment_line
                       ++ unlines [".do mso man.tmac"; ".TH NAME 1"; "text"]))
  /\ occurs (lit "2026-10-30")
       (comment_line ++ unlines [".do mso man.tmac"; ".TH NAME 1"; "text"])
     = false.
Proof. repeat split; vm_compute; reflexivity. Qed.

(** The ruler [===x] under [Title]. *)
Lemma setext_rule_witness :
  step mp_mm at_ruler
  = Running (mkState (rev (LF :: lit "===x" ++ [LF]) ++ back at_ruler)
                     (unlines ["more"]) [] false false false false stack0
                     (out at_ruler ++ roff_text mp_mm new_sh
                      ++ flush_text (d at_ruler))).
Proof.
  refine (proj2 (proj2 (setext_rule mp_mm at_ruler (unlines ["===x"; "more"])
                          (lit "===x") (unlines ["more"])
                          eq_refl eq_refl eq_refl eq_refl eq_refl _)
                       _ _) _).
  - vm_compute. intros H. repeat (destruct H as [H|H]; [discriminate H|]).
    exact H.
  - discriminate.
  - reflexivity.
  - vm_compute. intros H. repeat (destruct H as [H|H]; [discriminate H|]).
    exact H.
Defined.

(** C4, the claim as written: a ruler with text after the three characters
    makes a section header all the same. *)
Lemma ruler_with_trailing_text_is_header :
  md2roff mp_mm stack0 today (lit "doc") (unlines ["Title"; "===x"])
  = Some (Returned (comment_line ++ unlines [".do mso m.tmac"; ".SH Title"])).
Proof. vm_compute. reflexivity. Qed.




(** At the end of the source the loop flushes the buffer and returns. *)
Lemma end_of_input_flushes mpack fuel st fl :
  p st = [] -> flushln (d st) = Some fl ->
  run mpack (S fuel) st = Some (Returned (out st ++ fl)).
Proof.
  intros Hp Hfl. cbn [run]. rewrite Hp.
  now rewrite (do_flush_some st fl Hfl).
Qed.

(** A ruler that no newline ends makes the loop return without that
    flush, whatever the buffer holds. *)
Lemma early_return_skips_flush mpack fuel st r :
  bcode st = false -> bline st = false ->
  p st = LF :: r -> is_rule r = true -> ~ In LF r ->
  run mpack (S fuel) st = Some (Returned (out st)).
Proof.
  intros Hcode Hline Hp Hrule Hno. cbn [run]. rewrite Hp.
  assert (Hs : step mpack st = Returned (out st)).
  { unfold step. rewrite Hcode, Hp, Hline. cbn [peek hd].
    change (Ascii.eqb LF "\"%char) with false. cbv iota.
    unfold step_inline. rewrite Hp.
    change (Ascii.eqb LF LF) with true. cbv iota.
    now rewrite Hrule, split_at_none. }
  now rewrite Hs.
Qed.

(** C7.  The code at the input where the claim fails: a ruler that ends
    the source without a newline makes [md2roff] return at once, and the
    buffered line [Title] is never written; with the final [flushln], as
    on the source without the ruler, it is. *)
Theorem ruler_at_end_drops_buffer :
  md2roff mp_mm stack0 today (lit "doc") (lit "Title" ++ [LF] ++ lit "===")
  = Some (Returned (comment_line ++ unlines [".do mso m.tmac"]))
  /\ occurs (lit "Title") (comment_line ++ unlines [".do mso m.tmac"]) = false
  /\ md2roff mp_mm stack0 today (lit "doc") (lit "Title" ++ [LF])
     = Some (Returned (comment_line ++ unlines [".do mso m.tmac"; "Title"])).
Proof. repeat split; vm_compute; reflexivity. Qed.

(** The state after the first bullet. *)
Lemma list_stack_depth_witness :
  stk_list_p (stk (entry stack0 (unlines ["* a"; "* b"]))) = 0%Z
  /\ (0 <= stk_list_p (stk bullets_next) <= 1)%Z
  /\ (stk_list_p (stk bullets_next) < MAX_LIST_SIZE)%Z
  /\ (forall st',
        p bullets_next <> [] -> step mp_mm bullets_next = Running st' ->
        stk_list_p (stk st') = stk_list_p (stk bullets_next)
        \/ (stk_list_p (stk bullets_next) = 0 /\ stk_list_p (stk st') = 1)%Z
        \/ (stk_list_p (stk bullets_next) <> 0
            /\ stk_list_p (stk st') = stk_list_p (stk bullets_next) - 1)%Z).
Proof.
  apply (list_stack_depth mp_mm stack0 today (lit "doc")
           (unlines ["* a"; "* b"]) bullets_next).
  apply (reach_step mp_mm _ bullets_start bullets_next).
  - apply reach_start.
  - vm_compute. discriminate.
  - vm_compute. reflexivity.
Defined.

(** * Whole documents *)

(** An unclosed span ends the conversion: stdout holds the preamble only. *)
Example unclosed_span_exits :
  md2roff mp_man stack0 today (lit "doc") (unlines ["x `abc"])
  = Some (Exited (comment_line
                  ++ unlines [".do mso man.tmac";
                              ".TH doc 7 2026-10-30 document"])
                 diagnostic EXIT_FAILURE).
Proof. vm_compute. reflexivity. Qed.

(** A closed span is squeezed with the line that holds it. *)
Example closed_span :
  md2roff mp_man stack0 today (lit "doc") (unlines ["x `a  b` y"])
  = Some (Returned (comment_line
                    ++ unlines [".do mso man.tmac";
                                ".TH doc 7 2026-10-30 document";
                                "x `\f[CR]a b\fP' y"])).
Proof. vm_compute. reflexivity. Qed.

(** An image mark before a bracket that opens no link is dropped. *)
Example broken_image_link :
  md2roff mp_man stack0 today (lit "doc") (unlines ["x ![a]b](c) y"])
  = Some (Returned (comment_line
                    ++ unlines [".do mso man.tmac";
                                ".TH doc 7 2026-10-30 document";
                                "x [a]b](c) y"])).
Proof. vm_compute. reflexivity. Qed.

(** Headers of level 2, 3 and 4 in the man and mm dialects. *)
Example headers_man :
  md2roff mp_man stack0 today (lit "doc")
    (unlines ["x"; ""; "## Two"; ""; "### Three"; ""; "#### Four"; "y"])
  = Some (Returned (comment_line
                    ++ unlines [".do mso man.tmac";
                                ".TH doc 7 2026-10-30 document";
                                "x"; ".PP"; ".SH Two"; ".SS Three"; ".TP";
                                "\fBFour"; "\fRy"])).
Proof. vm_compute. reflexivity. Qed.

Example headers_mm :
  md2roff mp_mm stack0 today (lit "doc")
    (unlines ["x"; ""; "## Two"; ""; "### Three"; ""; "#### Four"; ""; "y"])
  = Some (Returned (comment_line
                    ++ unlines [".do mso m.tmac"; "x"; ".PP"; ".SH Two";
                                ".SS Three"; ".SS Four"; ".PP"; "y"])).
Proof. vm_compute. reflexivity. Qed.

(** A bullet list in the mm dialect, closed by an empty line. *)
Example bullets_mm :
  md2roff mp_mm stack0 today (lit "doc") (unlines ["* a"; "* b"; ""; "x"])
  = Some (Returned (comment_line
                    ++ unlines [".do mso m.tmac"; ".BL"; ".LI"; "a"; ".LE";
                                ".LI"; "b"; ".LE"; ".PP"; "x"])).
Proof. vm_compute. reflexivity. Qed.

(** * Further properties of the code *)

(** * More on sqzdup *)

Lemma sqz_loop_length s : forall prev lc,
  (length (sqz_loop prev lc s) <= length s)%nat.
Proof.
  induction s as [|c r IH]; intros prev lc; cbn [sqz_loop]; [simpl; lia|].
  destruct (isspace c).
  - destruct lc; [specialize (IH (Some c) true); simpl; lia|].
    destruct prev as [b|]; [|specialize (IH (Some c) true); simpl; lia].
    specialize (IH (Some c) true).
    destruct (isalnum b); [simpl; lia|].
    destruct (isalnum _); simpl; lia.
  - specialize (IH (Some c) false). simpl. lia.
Qed.

Lemma chop_length t : (length (chop t) <= length t)%nat.
Proof.
  destruct t as [|c t'] using rev_ind; [simpl; lia|]. clear IHt'.
  rewrite chop_snoc. destruct (isspace c); rewrite ?length_app; simpl; lia.
Qed.

Lemma skip_space_length s : (length (skip_space s) <= length s)%nat.
Proof.
  induction s as [|c r IH]; simpl; [lia|]. destruct (isspace c); simpl; lia.
Qed.

Lemma cstr_length s : (length (cstr s) <= length s)%nat.
Proof.
  induction s as [|c r IH]; simpl; [lia|].
  destruct (Ascii.eqb c NUL); simpl; lia.
Qed.

(** X1.  The squeezed copy is never longer than the source up to its
    terminator, from whatever state the copying loop starts: the block of
    strlen(source) + 1 bytes that [sqzdup] allocates holds the result and
    its terminator. *)
Theorem sqzdup_fits_allocation (source : text) (prev : option ascii)
    (lc : bool) :
  (length (sqz_loop prev lc (cstr source)) <= length (cstr source))%nat
  /\ (length (sqzdup source) <= length (cstr source))%nat
  /\ (length (sqzdup source) <= length source)%nat.
Proof.
  split; [apply sqz_loop_length|].
  assert (H : (length (sqzdup source) <= length (cstr source))%nat).
  { rewrite sqzdup_eq.
    pose proof (chop_length (sqz_loop None false (skip_space (cstr source)))).
    pose proof (sqz_loop_length (skip_space (cstr source)) None false).
    pose proof (skip_space_length (cstr source)). lia. }
  split; [exact H|]. pose proof (cstr_length source). lia.
Qed.

Lemma skip_space_nil_iff s : skip_space s = [] <-> forallb isspace s = true.
Proof.
  induction s as [|c r IH]; simpl; [tauto|].
  destruct (isspace c); simpl; [exact IH|]. split; discriminate.
Qed.

Lemma sqzdup_nil_iff (source : text) :
  sqzdup source = [] <-> forallb isspace (cstr source) = true.
Proof.
  rewrite sqzdup_eq, <- skip_space_nil_iff.
  pose proof (skip_space_starts (cstr source)) as Hst.
  destruct (skip_space (cstr source)) as [|c r]; [split; reflexivity|].
  unfold starts_nonspace in Hst. simpl in Hst.
  split; [|discriminate]. cbn [sqz_loop]. rewrite Hst.
  intros H. exfalso.
  destruct (sqz_loop (Some c) false r) as [|y t] using rev_ind.
  - change (chop [c] = []) in H. rewrite <- (app_nil_l [c]) in H.
    rewrite chop_snoc, Hst in H. discriminate.
  - clear IHt. rewrite app_comm_cons, chop_snoc in H.
    destruct (isspace y); [discriminate|].
    destruct t; discriminate.
Qed.

(** X2.  [sqzdup] gives the empty string exactly for the sources that
    hold white space only up to the terminator. *)
Theorem sqzdup_empty_on_white_space (source : text) :
  forallb isspace (cstr source)
  = match sqzdup source with [] => true | _ :: _ => false end.
Proof.
  destruct (sqzdup source) as [|c t] eqn:E.
  - now apply sqzdup_nil_iff.
  - destruct (forallb isspace (cstr source)) eqn:F; [|reflexivity].
    apply sqzdup_nil_iff in F. congruence.
Qed.

Lemma filter_nonspace_cons c t :
  filter nonspace (c :: t)
  = if isspace c then filter nonspace t else c :: filter nonspace t.
Proof. simpl. unfold nonspace at 1. now destruct (isspace c). Qed.

Lemma filter_sqz_loop s : forall prev lc,
  filter nonspace (sqz_loop prev lc s) = filter nonspace s.
Proof.
  induction s as [|c r IH]; intros prev lc; [reflexivity|].
  rewrite (filter_nonspace_cons c r). cbn [sqz_loop].
  destruct (isspace c) eqn:Hc.
  - destruct lc; [apply IH|].
    destruct prev as [b|]; [|apply IH].
    destruct (isalnum b); [rewrite filter_nonspace_cons; apply IH|].
    destruct (isalnum _); [rewrite filter_nonspace_cons|]; apply IH.
  - rewrite filter_nonspace_cons, Hc. f_equal. apply IH.
Qed.

Lemma filter_chop t : filter nonspace (chop t) = filter nonspace t.
Proof.
  destruct t as [|c t'] using rev_ind; [reflexivity|]. clear IHt'.
  rewrite chop_snoc. destruct (isspace c) eqn:Hc; [|reflexivity].
  rewrite filter_app, filter_nonspace_cons, Hc. simpl.
  now rewrite app_nil_r.
Qed.

Lemma filter_skip_space s :
  filter nonspace (skip_space s) = filter nonspace s.
Proof.
  induction s as [|c r IH]; [reflexivity|].
  rewrite filter_nonspace_cons. cbn [skip_space].
  destruct (isspace c) eqn:Hc; [exact IH|].
  now rewrite filter_nonspace_cons, Hc.
Qed.

(** X3.  [sqzdup] removes and rewrites white space only: the characters
    that are not white space are those of the source, in the same order. *)
Theorem sqzdup_keeps_other_characters (source : text) :
  filter nonspace (sqzdup source) = filter nonspace (cstr source).
Proof.
  now rewrite sqzdup_eq, filter_chop, filter_sqz_loop, filter_skip_space.
Qed.

Lemma nf_at_space a : forall o w b,
  nf o (a ++ w :: b) = true -> isspace w = true ->
  w = SP /\ isspace (peek b) = false
  /\ match a with
     | [] => exists x, o = Some x /\ isspace x = false
     | _ => isspace (last a NUL) = false
     end.
Proof.
  induction a as [|c a IH]; intros o w b H Hw.
  - cbn [app] in H. rewrite nf_cons, Hw in H.
    apply andb_true_iff in H. destruct H as [H _].
    apply andb_true_iff in H. destruct H as [H Hpk].
    apply andb_true_iff in H. destruct H as [Hsp Ho].
    apply Ascii.eqb_eq in Hsp. apply negb_true_iff in Hpk.
    repeat split; try assumption.
    destruct o as [x|]; [|discriminate]. exists x. split; [reflexivity|].
    apply andb_true_iff in Ho. destruct Ho as [Ho _].
    now apply negb_true_iff in Ho.
  - change ((c :: a) ++ w :: b) with (c :: (a ++ w :: b)) in H.
    rewrite nf_cons in H.
    assert (Hnf : nf (Some c) (a ++ w :: b) = true).
    { destruct (isspace c); apply andb_true_iff in H; tauto. }
    destruct (IH _ _ _ Hnf Hw) as (E1 & E2 & E3).
    repeat split; try assumption.
    destruct a as [|c' a'].
    + destruct E3 as (x & Hx & Hsx). now inversion Hx; subst.
    + exact E3.
Qed.

(** X4.  Every white-space character of a result of [sqzdup] is a single
    space between two characters that are not white space: no tab or
    newline is left, no blank at either end, and no two blanks in a row. *)
Theorem sqzdup_blanks_are_single (source a : text) (w : ascii) (b : text) :
  sqzdup source = a ++ w :: b -> isspace w = true ->
  w = SP
  /\ a <> [] /\ isspace (last a NUL) = false
  /\ b <> [] /\ isspace (peek b) = false.
Proof.
  intros E Hw. destruct (sqzdup_nf source) as [Hnf Hlast].
  rewrite E in Hnf, Hlast.
  destruct (nf_at_space a None w b Hnf Hw) as (E1 & E2 & E3).
  assert (Ha : a <> []).
  { intros ->. destruct E3 as (x & Hx & _). discriminate. }
  assert (Hb : b <> []).
  { intros ->. rewrite last_last in Hlast. congruence. }
  repeat split; try assumption.
  destruct a; [congruence|exact E3].
Qed.

Lemma sqzdup_blanks_are_single_witness :
  SP = SP
  /\ lit "a." <> [] /\ isspace (last (lit "a.") NUL) = false
  /\ lit "b" <> [] /\ isspace (peek (lit "b")) = false.
Proof.
  apply (sqzdup_blanks_are_single (lit " a." ++ [TAB; LF] ++ lit "b ")
           (lit "a.") SP (lit "b")); reflexivity.
Defined.

(** * println and flushln *)

Lemma println_app src : fst (println src) ++ snd (println src) = src.
Proof.
  induction src as [|c r IH]; [reflexivity|]. simpl.
  destruct (Ascii.eqb c LF); [reflexivity|].
  destruct (println r) as [a b]. simpl in *. now rewrite IH.
Qed.

Lemma println_body src : ~ In LF (removelast (fst (println src))).
Proof.
  induction src as [|c r IH]; [simpl; tauto|]. simpl.
  destruct (Ascii.eqb c LF) eqn:E; [simpl; tauto|].
  destruct (println r) as [a b]. cbn [fst] in *.
  destruct a as [|x a']; [simpl; tauto|].
  change (removelast (c :: x :: a')) with (c :: removelast (x :: a')).
  intros [H|H]; [|now apply IH]. subst c. discriminate E.
Qed.

Lemma println_end src :
  snd (println src) = [] \/ last (fst (println src)) NUL = LF.
Proof.
  induction src as [|c r IH]; [now left|]. simpl.
  destruct (Ascii.eqb c LF) eqn:E.
  - right. now apply Ascii.eqb_eq in E.
  - destruct (println r) as [a b]. cbn [fst snd] in *.
    destruct IH as [IH|IH]; [now left|]. right.
    destruct a; [discriminate IH|exact IH].
Qed.

(** X5.  [println] cuts the text after its first newline: the part that
    it writes and the part that it returns make up the text, the written
    part has no newline before its last character, and it ends with a
    newline unless the text ran out. *)
Theorem println_one_line (src : text) :
  fst (println src) ++ snd (println src) = src
  /\ ~ In LF (removelast (fst (println src)))
  /\ (snd (println src) = [] \/ last (fst (println src)) NUL = LF).
Proof.
  split; [apply println_app|]. split; [apply println_body|apply println_end].
Qed.

Lemma sqzdup_no_LF buf : ~ In LF (sqzdup buf).
Proof.
  intros Hin. apply in_split in Hin. destruct Hin as (a & b & E).
  destruct (sqzdup_nf buf) as [Hnf _]. rewrite E in Hnf.
  destruct (nf_at_space a None LF b Hnf eq_refl) as (H & _). discriminate H.
Qed.

Lemma skip_space_no_NUL s : ~ In NUL s -> ~ In NUL (skip_space s).
Proof.
  induction s as [|c r IH]; simpl; [tauto|].
  destruct (isspace c); [tauto|]. tauto.
Qed.

Lemma sqzdup_skip_space buf : sqzdup (skip_space (cstr buf)) = sqzdup buf.
Proof.
  rewrite !sqzdup_eq.
  rewrite (cstr_id (skip_space (cstr buf)))
    by apply skip_space_no_NUL, cstr_no_NUL.
  now rewrite (skip_space_id _ (skip_space_starts (cstr buf))).
Qed.

Lemma flush_text_eq buf :
  flush_text buf
  = if forallb isspace (cstr buf) then [] else sqzdup buf ++ [LF].
Proof.
  unfold flush_text. rewrite <- sqzdup_skip_space.
  destruct (forallb isspace (cstr buf)) eqn:F.
  - apply skip_space_nil_iff in F. now rewrite F.
  - destruct (skip_space (cstr buf)) as [|c t] eqn:E; [|reflexivity].
    apply skip_space_nil_iff in E. congruence.
Qed.

(** X6.  [flushln] writes nothing for a buffer of white space, and the
    squeezed buffer on one line otherwise; the squeezed text has no newline
    of its own.  Storing the terminator needs the buffer to hold less than
    the 64 KiB of [dest]. *)
Theorem flushln_writes_one_line (buf : text) :
  flushln buf
  = (if (Z.of_nat (length buf) <? DEST_SIZE)%Z
     then Some (if forallb isspace (cstr buf) then []
                else sqzdup buf ++ [LF])
     else None)
  /\ ~ In LF (sqzdup buf).
Proof.
  split; [|apply sqzdup_no_LF].
  unfold flushln. destruct buf as [|c t]; [reflexivity|].
  now rewrite flush_text_eq.
Qed.

(** * The list stack and roff *)

Lemma upd_length {A} n (v : A) a : length (upd n v a) = length a.
Proof.
  revert n. induction a as [|x a IH]; intros [|n]; simpl; auto.
Qed.

Lemma nth_error_upd_same {A} n (v : A) a :
  (n < length a)%nat -> nth_error (upd n v a) n = Some v.
Proof.
  revert n. induction a as [|x a IH]; intros [|n]; simpl; try lia; auto.
  intros H. apply IH. lia.
Qed.

Lemma nth_error_upd_other {A} n m (v : A) a :
  n <> m -> nth_error (upd n v a) m = nth_error a m.
Proof.
  revert n m. induction a as [|x a IH]; intros [|n] [|m]; simpl; auto;
    try congruence.
Qed.

Lemma upd_upd {A} n (v w : A) a : upd n v (upd n w a) = upd n v a.
Proof.
  revert n. induction a as [|x a IH]; intros [|n]; simpl; auto.
  now rewrite IH.
Qed.

Lemma upd_id {A} n (v : A) a : nth_error a n = Some v -> upd n v a = a.
Proof.
  revert n. induction a as [|x a IH]; intros [|n]; simpl; auto.
  - intros H. now inversion H.
  - intros H. f_equal. now apply IH.
Qed.

Lemma in_bounds_spec i : in_bounds i = true <-> (0 <= i < MAX_LIST_SIZE)%Z.
Proof.
  unfold in_bounds. rewrite andb_true_iff, Z.leb_le, Z.ltb_lt. tauto.
Qed.

(** X7.  Opening an ordered or an unordered list succeeds exactly when
    the stack pointer is inside the 32 slots: it then records the kind of
    the list and the counter 1 in the slot of the pointer and moves the
    pointer up by one.  At a pointer of 32 the store falls outside the
    arrays. *)
Theorem list_open_capacity (mpack : macropackage_t) (s : lstack) :
  length (stk_list s) = 32%nat -> length (stk_count s) = 32%nat ->
  match roff mpack ol_open [] s with
  | Some (s', _) =>
      (0 <= stk_list_p s < MAX_LIST_SIZE)%Z
      /\ stk_list_p s' = (stk_list_p s + 1)%Z
      /\ arr_get (stk_list s') (stk_list_p s) = Some ol
      /\ arr_get (stk_count s') (stk_list_p s) = Some 1%Z
  | None => ~ (0 <= stk_list_p s < MAX_LIST_SIZE)%Z
  end
  /\ match roff mpack ul_open [] s with
     | Some (s', _) =>
         (0 <= stk_list_p s < MAX_LIST_SIZE)%Z
         /\ stk_list_p s' = (stk_list_p s + 1)%Z
         /\ arr_get (stk_list s') (stk_list_p s) = Some ul
         /\ arr_get (stk_count s') (stk_list_p s) = Some 1%Z
     | None => ~ (0 <= stk_list_p s < MAX_LIST_SIZE)%Z
     end.
Proof.
  intros Hl Hc.
  assert (P : forall kind,
    match push kind s with
    | Some s' =>
        (0 <= stk_list_p s < MAX_LIST_SIZE)%Z
        /\ stk_list_p s' = (stk_list_p s + 1)%Z
        /\ arr_get (stk_list s') (stk_list_p s) = Some kind
        /\ arr_get (stk_count s') (stk_list_p s) = Some 1%Z
    | None => ~ (0 <= stk_list_p s < MAX_LIST_SIZE)%Z
    end).
  { intros kind. unfold push, arr_set, arr_get.
    destruct (in_bounds (stk_list_p s)) eqn:B.
    - apply in_bounds_spec in B. cbn [stk_list stk_count stk_list_p].
      unfold MAX_LIST_SIZE in *.
      rewrite !nth_error_upd_same by lia. auto.
    - intros H. apply in_bounds_spec in H. congruence. }
  split.
  - specialize (P ol). unfold roff. destruct (push ol s); exact P.
  - specialize (P ul). unfold roff. destruct (push ul s); exact P.
Qed.

Lemma list_open_capacity_witness :
  match roff mp_mom ol_open [] stack0 with
  | Some (s', _) =>
      (0 <= stk_list_p stack0 < MAX_LIST_SIZE)%Z
      /\ stk_list_p s' = (stk_list_p stack0 + 1)%Z
      /\ arr_get (stk_list s') (stk_list_p stack0) = Some ol
      /\ arr_get (stk_count s') (stk_list_p stack0) = Some 1%Z
  | None => ~ (0 <= stk_list_p stack0 < MAX_LIST_SIZE)%Z
  end
  /\ match roff mp_mom ul_open [] stack0 with
     | Some (s', _) =>
         (0 <= stk_list_p stack0 < MAX_LIST_SIZE)%Z
         /\ stk_list_p s' = (stk_list_p stack0 + 1)%Z
         /\ arr_get (stk_list s') (stk_list_p stack0) = Some ul
         /\ arr_get (stk_count s') (stk_list_p stack0) = Some 1%Z
     | None => ~ (0 <= stk_list_p stack0 < MAX_LIST_SIZE)%Z
     end.
Proof.
  apply (list_open_capacity mp_mom stack0); reflexivity.
Defined.

(** X8.  [roff] moves the stack pointer up by one for a list that opens
    and never moves it otherwise, also not for a list that closes; it
    writes the array of list kinds only when a list opens, and leaves the
    whole stack as it is for every element other than an opening list and
    an item of the man dialect. *)
Theorem roff_touches_the_stack_for_lists_only (mpack : macropackage_t)
    (type : elem) (args : list text) (s s' : lstack) (t : text) :
  roff mpack type args s = Some (s', t) ->
  stk_list_p s' = (stk_list_p s + delta type)%Z
  /\ (type <> ol_open -> type <> ul_open -> stk_list s' = stk_list s)
  /\ (type <> ol_open -> type <> ul_open ->
      type <> li_open \/ mpack <> mp_man -> s' = s).
Proof.
  intros H. split; [exact (roff_delta _ _ _ _ _ _ H)|].
  unfold roff in H.
  split; intros H1 H2; [|intros H3];
    destruct type; try congruence;
    repeat match type of H with
           | context [match ?x with _ => _ end] => destruct x eqn:?
           end;
    inversion H; subst; try reflexivity;
    destruct H3; congruence.
Qed.

Lemma roff_touches_the_stack_for_lists_only_witness :
  stk_list_p stack0 = (stk_list_p stack0 + delta par_end)%Z
  /\ (par_end <> ol_open -> par_end <> ul_open ->
      stk_list stack0 = stk_list stack0)
  /\ (par_end <> ol_open -> par_end <> ul_open ->
      par_end <> li_open \/ mp_mdoc <> mp_man -> stack0 = stack0).
Proof.
  apply (roff_touches_the_stack_for_lists_only mp_mdoc par_end [] stack0
           stack0 (puts (lit ".Pp"))).
  reflexivity.
Defined.

Lemma li_open_man_at (s : lstack) (i : nat) (c : Z) :
  length (stk_list s) = 32%nat -> length (stk_count s) = 32%nat ->
  stk_list_p s = Z.of_nat (S i) -> (i < 32)%nat ->
  nth_error (stk_list s) i = Some ol -> nth_error (stk_count s) i = Some c ->
  (c < INT_MAX)%Z ->
  roff mp_man li_open [] s
  = Some (mkStack (stk_list s) (upd i (c + 1)%Z (stk_count s)) (stk_list_p s),
          ip_line c).
Proof.
  intros Hl Hc Hp Hi Hk Hn Hmax. unfold roff.
  destruct (Z.eqb_spec (stk_list_p s) 0) as [E|_]; [lia|].
  unfold arr_get, arr_set.
  assert (B : in_bounds (stk_list_p s - 1) = true).
  { apply in_bounds_spec. unfold MAX_LIST_SIZE. lia. }
  rewrite B.
  assert (E : Z.to_nat (stk_list_p s - 1) = i) by lia.
  rewrite E, Hk. cbn [is_ul]. rewrite Hn.
  destruct (Z.ltb_spec c INT_MAX) as [_|G]; [|lia]. reflexivity.
Qed.

(** X9.  In the man dialect, [n] items in a row of an ordered list whose
    counter is [c] are numbered [c], [c + 1], ... [c + n - 1], and leave
    the counter at [c + n]; nothing else of the stack changes. *)
Theorem li_open_counts_up (n : nat) : forall (s : lstack) (i : nat) (c : Z),
  length (stk_list s) = 32%nat -> length (stk_count s) = 32%nat ->
  stk_list_p s = Z.of_nat (S i) -> (i < 32)%nat ->
  nth_error (stk_list s) i = Some ol -> nth_error (stk_count s) i = Some c ->
  (c + Z.of_nat n <= INT_MAX)%Z ->
  li_opens mp_man n s
  = Some (mkStack (stk_list s) (upd i (c + Z.of_nat n)%Z (stk_count s))
                  (stk_list_p s),
          concat (map (fun k => ip_line (c + Z.of_nat k)) (seq 0 n))).
Proof.
  induction n as [|n IH]; intros s i c Hl Hc Hp Hi Hk Hn Hmax.
  - simpl. rewrite Z.add_0_r, (upd_id _ _ _ Hn). now destruct s.
  - cbn [li_opens].
    rewrite (li_open_man_at s i c) by (try assumption; lia).
    set (s1 := mkStack _ _ _).
    rewrite (IH s1 i (c + 1)%Z); subst s1; cbn [stk_list stk_count stk_list_p];
      try assumption; try lia.
    + assert (E1 : upd i (c + 1 + Z.of_nat n)%Z
                       (upd i (c + 1)%Z (stk_count s))
                     = upd i (c + Z.of_nat (S n))%Z (stk_count s)).
      { rewrite upd_upd. f_equal. lia. }
      assert (E2 : ip_line c
                   ++ concat (map (fun k => ip_line (c + 1 + Z.of_nat k))
                                  (seq 0 n))
                   = concat (map (fun k => ip_line (c + Z.of_nat k))
                                 (seq 0 (S n)))).
      { cbn [seq map concat]. rewrite Z.add_0_r. f_equal.
        rewrite <- seq_shift, map_map. f_equal. apply map_ext.
        intros k. f_equal. lia. }
      now rewrite E1, E2.
    + now rewrite upd_length.
    + apply nth_error_upd_same. lia.
Qed.

Lemma li_open_counts_up_witness :
  li_opens mp_man 3 (mkStack (ol :: repeat none 31) (7%Z :: repeat 0%Z 31) 1)
  = Some (mkStack (ol :: repeat none 31)
                  (upd 0 (7 + Z.of_nat 3)%Z (7%Z :: repeat 0%Z 31)) 1,
          concat (map (fun k => ip_line (7 + Z.of_nat k)) (seq 0 3))).
Proof.
  apply (li_open_counts_up 3
           (mkStack (ol :: repeat none 31) (7%Z :: repeat 0%Z 31) 1) 0 7%Z);
    try reflexivity; try lia.
  unfold INT_MAX. lia.
Defined.

(** * Code blocks *)

Lemma move_to_println st :
  move_to st (snd (println (p st)))
  = mkState (rev (fst (println (p st))) ++ back st) (snd (println (p st)))
            (d st) (bline st) (bcode st) (bold st) (italics st) (stk st)
            (out st).
Proof. apply move_to_app. symmetry. apply println_app. Qed.

Lemma roff_plain mpack type s :
  delta type = 0%Z -> type <> li_open -> type <> url_mark -> type <> man_ref ->
  roff mpack type [] s = Some (s, roff_text mpack type).
Proof.
  intros H1 H2 H3 H4.
  destruct type; try discriminate H1; try congruence;
    destruct mpack; reflexivity.
Qed.

(** X10.  Inside a code block, a line that is not the closing fence is
    written as it is, after the buffer is flushed; the state of the line
    start and of the emphasis is kept.  A line that starts with a dot is
    written between two lines that switch the control character of roff
    and switch it back. *)
Theorem code_block_line_verbatim (mpack : macropackage_t) (st : state)
    (fl : text) :
  bcode st = true ->
  flushln (d st) = Some fl ->
  prefixb fence (p st) = false ->
  step mpack st
  = Running
      (mkState (rev (fst (println (p st))) ++ back st) (snd (println (p st)))
               [] (bline st) true (bold st) (italics st) (stk st)
               (out st ++ fl ++ fst (dot_guard mpack (p st))
                ++ fst (println (p st)) ++ snd (dot_guard mpack (p st)))).
Proof.
  intros Hcode Hfl Hf. unfold step, step_code. rewrite Hcode.
  rewrite (do_flush_some _ fl Hfl).
  destruct st as [bk p0 d0 bl bc bo it sk o]. st_simpl.
  cbn [bcode p] in *. subst bc. rewrite Hf. unfold dot_guard.
  destruct (Ascii.eqb (peek p0) "."%char); st_simpl;
    pose proof (move_to_println
                  (mkState bk p0 [] bl true bo it sk o)) as M;
    cbn [p back d bline bcode bold italics stk out] in M.
  - destruct (println p0) as [ln rest] eqn:E. cbn [fst snd] in *.
    unfold move_to in *. st_simpl. cbn [p] in M.
    injection M as M. rewrite M. now rewrite <- !app_assoc.
  - destruct (println p0) as [ln rest] eqn:E. cbn [fst snd] in *.
    unfold move_to in *. st_simpl. cbn [p] in M.
    injection M as M. rewrite M. now rewrite app_nil_r, <- !app_assoc.
Qed.

Lemma code_block_line_verbatim_witness :
  step mp_man (mkState [LF] (unlines [".x  *y*"; "z"]) [] false true false
                       false stack0 [])
  = Running (mkState (rev (unlines [".x  *y*"]) ++ [LF]) (unlines ["z"]) []
                     false true false false stack0
                     (unlines [".cc !"; ".x  *y*"; "!cc ."])).
Proof.
  exact (code_block_line_verbatim mp_man
           (mkState [LF] (unlines [".x  *y*"; "z"]) [] false true false false
                    stack0 [])
           [] eq_refl eq_refl eq_refl).
Defined.

Lemma advance_3 st c1 c2 c3 r :
  p st = c1 :: c2 :: c3 :: r ->
  advance st 3
  = mkState (c3 :: c2 :: c1 :: back st) r (d st) (bline st) (bcode st)
            (bold st) (italics st) (stk st) (out st).
Proof. intros H. exact (advance_app st [c1; c2; c3] r H). Qed.

(** X11.  Three backticks close a code block wherever the scanner meets
    them inside one, and open a code block at the beginning of a line
    outside one; both flush the buffer and write the directive of the
    dialect, and the rest of the fence line is scanned next. *)
Theorem fences_switch_code_mode (mpack : macropackage_t) (st : state)
    (rest fl : text) :
  p st = fence ++ rest ->
  flushln (d st) = Some fl ->
  (bcode st = true ->
   step mpack st
   = Running (mkState (rev fence ++ back st) rest [] (bline st) false
                      (bold st) (italics st) (stk st)
                      (out st ++ fl ++ roff_text mpack cblock_end)))
  /\ (bcode st = false -> bline st = true ->
      step mpack st
      = Running (mkState (rev fence ++ back st) rest [] false true
                         (bold st) (italics st) (stk st)
                         (out st ++ fl ++ roff_text mpack cblock_open))).
Proof.
  intros Hp Hfl.
  destruct st as [bk p0 d0 bl bc bo it sk o].
  cbn [p d bcode bline back bold italics stk out] in *. subst p0.
  split.
  - intros ->. unfold step, step_code. st_simpl.
    rewrite (do_flush_some _ fl) by exact Hfl. st_simpl.
    change (prefixb fence (fence ++ rest)) with true. cbv iota.
    rewrite (advance_3 _ "`"%char "`"%char "`"%char rest) by reflexivity.
    st_simpl. unfold do_roff. st_simpl.
    rewrite roff_plain by (reflexivity || discriminate). st_simpl.
    unfold do_flush. st_simpl. cbn [flushln]. st_simpl.
    now rewrite app_nil_r, <- !app_assoc.
  - intros -> ->. unfold step. st_simpl.
    change (peek (fence ++ rest)) with "`"%char.
    change (Ascii.eqb "`"%char "\"%char) with false. cbv iota.
    unfold step_bol. st_simpl.
    change (peek (fence ++ rest)) with "`"%char.
    change (Ascii.eqb "`"%char LF) with false.
    change (is_hash "`"%char) with false.
    change (is_bullet "`"%char) with false.
    change (isdigit "`"%char) with false. rewrite andb_false_r.
    change (prefixb fence (fence ++ rest)) with true. cbv iota.
    unfold bol_fence. st_simpl.
    rewrite (advance_3 _ "`"%char "`"%char "`"%char rest) by reflexivity.
    st_simpl. rewrite (do_flush_some _ fl) by exact Hfl. st_simpl.
    unfold do_roff. st_simpl.
    rewrite roff_plain by (reflexivity || discriminate). st_simpl.
    now rewrite <- !app_assoc.
Qed.

Lemma fences_switch_code_mode_witness :
  step mp_mdoc (mkState [LF] (fence ++ unlines [""; "x"]) (lit "a ") true
                        false false false stack0 [])
  = Running (mkState (rev fence ++ [LF]) (unlines [""; "x"]) [] false true
                     false false stack0
                     ([] ++ unlines ["a"] ++ roff_text mp_mdoc cblock_open)).
Proof.
  exact (proj2 (fences_switch_code_mode mp_mdoc
                  (mkState [LF] (fence ++ unlines [""; "x"]) (lit "a ") true
                           false false false stack0 [])
                  (unlines [""; "x"]) (unlines ["a"]) eq_refl eq_refl)
               eq_refl eq_refl).
Defined.

(** * Escapes *)

(** X12.  A backslash outside a code block puts the character after it
    in the buffer, translated by the table of C escapes, without looking at
    its markdown meaning, and the line start is over.  The markdown
    characters translate to themselves.  A backslash as the last character
    of the source makes the loop read past the terminator. *)
Theorem backslash_escapes_next_character (mpack : macropackage_t)
    (st : state) :
  bcode st = false ->
  (forall c rest,
     p st = "\"%char :: c :: rest ->
     (Z.of_nat (length (d st)) < DEST_SIZE)%Z ->
     step mpack st
     = Running (mkState (c :: "\"%char :: back st) rest (d st ++ [escape c])
                        false false (bold st) (italics st) (stk st)
                        (out st)))
  /\ (p st = ["\"%char] -> step mpack st = Undefined)
  /\ (forall c, is_star c = true -> escape c = c)
  /\ escape "`"%char = "`"%char /\ escape "["%char = "["%char
  /\ escape "#"%char = "#"%char /\ escape "\"%char = "\"%char.
Proof.
  intros Hcode. split; [|split; [|split]].
  - intros c rest Hp Hroom. unfold step, step_escape. rewrite Hcode, Hp.
    cbn [peek hd]. change (Ascii.eqb "\"%char "\"%char) with true. cbv iota.
    destruct st as [bk p0 d0 bl bc bo it sk o].
    cbn [p d bcode] in *. subst p0 bc.
    unfold do_put. st_simpl. rewrite dput_room by (simpl length; lia).
    st_simpl. now rewrite (advance_2 _ "\"%char c rest) by reflexivity.
  - intros Hp. unfold step, step_escape. now rewrite Hcode, Hp.
  - intros c Hc. unfold is_star in Hc. apply orb_true_iff in Hc.
    destruct Hc as [Hc|Hc]; apply Ascii.eqb_eq in Hc; now subst c.
  - repeat split.
Qed.

Lemma backslash_escapes_next_character_witness :
  step mp_man (mkState [] (lit "\nx") [] true false false false stack0 [])
  = Running (mkState (lit "n\") (lit "x") [LF] false false false false
                     stack0 []).
Proof.
  exact (proj1 (backslash_escapes_next_character mp_man
                  (mkState [] (lit "\nx") [] true false false false stack0 [])
                  eq_refl)
               "n"%char (lit "x") eq_refl eq_refl).
Defined.

(** * Emphasis *)

(** A character that opens no block at the beginning of a line reaches the
    in-line part; a bullet does when no blank follows it. *)
Lemma step_reaches_inline mpack st c r :
  bcode st = false ->
  p st = c :: r ->
  Ascii.eqb c "\"%char = false ->
  Ascii.eqb c LF = false ->
  is_hash c = false ->
  (bline st = true -> isblank (peek r) && is_bullet c = false) ->
  isdigit c = false ->
  (bline st = true -> prefixb fence (c :: r) = false) ->
  step mpack st = step_inline mpack (with_bline st false).
Proof.
  intros Hcode Hp Hbs Hlf Hh Hbu Hd Hf. unfold step.
  rewrite Hcode, Hp. cbn [peek hd]. rewrite Hbs.
  destruct (bline st) eqn:Hb.
  - specialize (Hf eq_refl). specialize (Hbu eq_refl). unfold step_bol. cbn [with_bline p]. rewrite Hp.
    cbn [peek hd tl]. fold (peek r). now rewrite Hlf, Hh, Hbu, Hd, Hf.
  - rewrite <- Hb. now rewrite with_bline_same.
Qed.

Lemma is_star_cases c : is_star c = true -> c = "*"%char \/ c = "_"%char.
Proof.
  unfold is_star. intros H. apply orb_true_iff in H.
  destruct H as [H|H]; apply Ascii.eqb_eq in H; auto.
Qed.

Lemma style_lengths mpack :
  (length (strong_open mpack) <= 8 /\ length (em_open mpack) <= 8
   /\ length (style_close mpack) <= 8)%nat.
Proof. destruct mpack; cbn; lia. Qed.

(** X13.  A doubled star or underscore closes strong text when it is on,
    opens it after a boundary character, and is copied otherwise; a single
    one does the same for emphasis.  Strong text and emphasis are tracked
    apart, and the character that closes need not be the one that
    opened. *)
Theorem emphasis_toggles (mpack : macropackage_t) (st : state) (c : ascii)
    (rest : text) :
  bcode st = false -> is_star c = true ->
  (Z.of_nat (length (d st)) + 8 <= DEST_SIZE)%Z ->
  (p st = c :: c :: rest ->
   step mpack st
   = Running
       (mkState (c :: c :: back st) rest
          (d st ++ if bold st then style_close mpack
                   else if boundary (prev_char st) then strong_open mpack
                   else [c; c])
          false false
          (if bold st then false else boundary (prev_char st))
          (italics st) (stk st) (out st)))
  /\ (p st = c :: rest -> Ascii.eqb (peek rest) c = false ->
      (bline st = true -> isblank (peek rest) = false) ->
      step mpack st
      = Running
          (mkState (c :: back st) rest
             (d st ++ if italics st then style_close mpack
                      else if boundary (prev_char st) then em_open mpack
                      else [c])
             false false (bold st)
             (if italics st then false else boundary (prev_char st))
             (stk st) (out st))).
Proof.
  intros Hcode Hc Hroom.
  destruct (style_lengths mpack) as (L1 & L2 & L3).
  split.
  - intros Hp.
    assert (Hs : step mpack st = step_inline mpack (with_bline st false)).
    { apply (step_reaches_inline mpack st c (c :: rest) Hcode Hp);
        try (destruct (is_star_cases c Hc); subst c; reflexivity);
        intros _; destruct (is_star_cases c Hc); subst c; reflexivity. }
    rewrite Hs. clear Hs.
    destruct st as [bk p0 d0 bl bc bo it sk o].
    cbn [p d bcode] in *. subst p0 bc. unfold step_inline. st_simpl.
    assert (E1 : Ascii.eqb c LF = false)
      by (destruct (is_star_cases c Hc); subst c; reflexivity).
    rewrite E1, Hc. cbn [peek hd]. rewrite Ascii.eqb_refl. cbn [andb].
    cbv iota. unfold prev_char, do_put. st_simpl.
    fold (style_close mpack) (strong_open mpack).
    destruct bo.
    + rewrite dput_room by lia. st_simpl.
      now rewrite (advance_2 _ c c rest) by reflexivity.
    + destruct (boundary _).
      * rewrite dput_room by lia. st_simpl.
        now rewrite (advance_2 _ c c rest) by reflexivity.
      * rewrite dput_room by (simpl length; lia). st_simpl.
        now rewrite (advance_2 _ c c rest) by reflexivity.
  - intros Hp Hnc Hnb.
    assert (Hs : step mpack st = step_inline mpack (with_bline st false)).
    { apply (step_reaches_inline mpack st c rest Hcode Hp);
        try (destruct (is_star_cases c Hc); subst c; reflexivity).
      intros Hb. now rewrite (Hnb Hb). }
    rewrite Hs. clear Hs.
    destruct st as [bk p0 d0 bl bc bo it sk o].
    cbn [p d bcode] in *. subst p0 bc. unfold step_inline. st_simpl.
    assert (E1 : Ascii.eqb c LF = false)
      by (destruct (is_star_cases c Hc); subst c; reflexivity).
    rewrite E1, Hc, Hnc. cbn [andb]. cbv iota.
    unfold prev_char, do_put. st_simpl.
    fold (style_close mpack) (em_open mpack).
    destruct it.
    + rewrite dput_room by lia. st_simpl.
      now rewrite (advance_1 _ c rest) by reflexivity.
    + destruct (boundary _).
      * rewrite dput_room by lia. st_simpl.
        now rewrite (advance_1 _ c rest) by reflexivity.
      * rewrite dput_room by (simpl length; lia). st_simpl.
        now rewrite (advance_1 _ c rest) by reflexivity.
Qed.

Lemma emphasis_toggles_witness :
  step mp_man (mkState (lit " x") (lit "**b") (lit "x ") false false false
                       false stack0 [])
  = Running (mkState (lit "** x") (lit "b") (lit "x " ++ strong_open mp_man)
                     false false true false stack0 []).
Proof.
  exact (proj1 (emphasis_toggles mp_man
                  (mkState (lit " x") (lit "**b") (lit "x ") false false
                           false false stack0 [])
                  "*"%char (lit "b") eq_refl eq_refl ltac:(vm_compute; discriminate))
               eq_refl).
Defined.

(** * Links *)

Lemma link_parse_intro label target rest :
  ~ In "]"%char label -> ~ In ")"%char target ->
  link_parse (label ++ "]"%char :: "("%char :: target ++ ")"%char :: rest)
  = Some (label, target, rest).
Proof.
  intros Hl Ht. unfold link_parse. rewrite split_at_intro by assumption.
  change (Ascii.eqb "("%char "("%char) with true. cbv iota.
  now rewrite split_at_intro by assumption.
Qed.

(** X14.  A link [[label](target)], with or without an exclamation mark
    before it, flushes the buffer and writes the reference of the dialect
    to the output: a man-page reference when the target is the word man, a
    hyperlink otherwise.  The scanner goes on after the closing
    parenthesis. *)
Theorem link_is_rendered (mpack : macropackage_t) (st : state)
    (label target rest fl : text) :
  bcode st = false ->
  ~ In "]"%char label -> ~ In ")"%char target ->
  flushln (d st) = Some fl ->
  let tail := label ++ "]"%char :: "("%char :: target ++ ")"%char :: rest in
  let consumed :=
    "["%char :: label ++ "]"%char :: "("%char :: target ++ [")"%char] in
  (p st = "["%char :: tail ->
   step mpack st
   = Running (mkState (rev consumed ++ back st)
                      rest [] false false (bold st) (italics st) (stk st)
                      (out st ++ fl ++ link_text mpack label target)))
  /\ (p st = "!"%char :: "["%char :: tail ->
      step mpack st
      = Running (mkState (rev consumed ++ "!"%char :: back st)
                         rest [] false false (bold st) (italics st) (stk st)
                         (out st ++ fl ++ link_text mpack label target))).
Proof.
  intros Hcode Hl Ht Hfl tail consumed.
  pose proof (link_parse_intro label target rest Hl Ht) as Hlp.
  fold tail in Hlp.
  assert (Hcons : "["%char :: tail = consumed ++ rest).
  { subst tail consumed. simpl. f_equal. rewrite <- app_assoc. simpl.
    do 3 f_equal. now rewrite <- app_assoc. }
  assert (Hroff : forall s,
    (if text_eqb target (lit "man")
     then do_roff mpack man_ref [label] s
     else do_roff mpack url_mark [label; target] s)
    = Some (emit s (link_text mpack label target))).
  { intros s. unfold link_text, do_roff.
    destruct (text_eqb target (lit "man")); cbn [roff bind fst snd];
      now destruct s. }
  split; intros Hp.
  - rewrite (step_falls mpack st _ _ Hcode Hp) by (intros; reflexivity).
    destruct st as [bk p0 d0 bl bc bo it sk o].
    cbn [p d bcode] in *. subst p0 bc. unfold step_inline. st_simpl.
    change (Ascii.eqb "["%char LF) with false.
    change (is_star "["%char) with false.
    change (Ascii.eqb "["%char "`"%char) with false.
    change (Ascii.eqb "["%char "["%char) with true.
    change (Ascii.eqb "["%char "!"%char) with false.
    cbn [andb orb]. cbv iota. st_simpl. cbn [tl]. rewrite Hlp.
    rewrite (do_flush_some _ fl) by exact Hfl. cbn [bind].
    rewrite Hroff. cbn [bind continue].
    rewrite (move_to_app _ consumed rest) by exact Hcons.
    st_simpl. now rewrite <- !app_assoc.
  - rewrite (step_falls mpack st _ _ Hcode Hp) by (intros; reflexivity).
    destruct st as [bk p0 d0 bl bc bo it sk o].
    cbn [p d bcode] in *. subst p0 bc. unfold step_inline. st_simpl.
    change (Ascii.eqb "!"%char LF) with false.
    change (is_star "!"%char) with false.
    change (Ascii.eqb "!"%char "`"%char) with false.
    change (Ascii.eqb "!"%char "["%char) with false.
    change (Ascii.eqb "!"%char "!"%char) with true.
    cbn [peek hd andb orb].
    change (Ascii.eqb "["%char "["%char) with true. cbv iota.
    rewrite (advance_1 _ "!"%char ("["%char :: tail)) by reflexivity.
    st_simpl. cbn [tl]. rewrite Hlp.
    rewrite (do_flush_some _ fl) by exact Hfl. cbn [bind].
    rewrite Hroff. cbn [bind continue].
    rewrite (move_to_app _ consumed rest) by exact Hcons.
    st_simpl. now rewrite <- !app_assoc.
Qed.

Lemma link_is_rendered_witness :
  step mp_man (mkState [] (lit "[ls 1](man) x") (lit "see ") false false
                       false false stack0 [])
  = Running (mkState (rev (lit "[ls 1](man)")) (lit " x") [] false false
                     false false stack0
                     ([] ++ unlines ["see"]
                      ++ link_text mp_man (lit "ls 1") (lit "man"))).
Proof.
  refine (proj1 (link_is_rendered mp_man
                   (mkState [] (lit "[ls 1](man) x") (lit "see ") false false
                            false false stack0 [])
                   (lit "ls 1") (lit "man") (lit " x") (unlines ["see"])
                   eq_refl _ _ eq_refl) eq_refl).
  - vm_compute. intros H. repeat (destruct H as [H|H]; [discriminate H|]).
    exact H.
  - vm_compute. intros H. repeat (destruct H as [H|H]; [discriminate H|]).
    exact H.
Defined.

(** The line of a reference to a man page in the man dialect: the name in
    bold and the section in parentheses. *)
Lemma man_ref_splits name sect :
  ~ In SP name ->
  roff_man_ref mp_man (name ++ SP :: sect)
  = lit "\fB" ++ name ++ lit "\fP(" ++ sect ++ lit ")" ++ [LF].
Proof.
  intros H. unfold roff_man_ref. now rewrite split_at_intro.
Qed.

(** * Lines and lists *)

(** X15.  An empty line flushes the buffer, ends the item and the list
    when a list is open, which takes one level off the stack, and then ends
    the paragraph; the next character is at the beginning of a line. *)
Theorem blank_line_ends_paragraph_and_list (mpack : macropackage_t)
    (st : state) (rest fl : text) :
  bcode st = false -> bline st = true ->
  p st = LF :: rest ->
  flushln (d st) = Some fl ->
  step mpack st
  = Running
      (mkState (LF :: back st) rest [] true false (bold st) (italics st)
         (if (stk_list_p (stk st) =? 0)%Z then stk st else pop (stk st))
         (out st ++ fl
          ++ (if (stk_list_p (stk st) =? 0)%Z then []
              else roff_text mpack li_end ++ roff_text mpack lst_close)
          ++ roff_text mpack par_end)).
Proof.
  intros Hcode Hline Hp Hfl.
  destruct st as [bk p0 d0 bl bc bo it sk o].
  cbn [p d bcode bline back bold italics stk out] in *. subst p0 bc bl.
  unfold step. st_simpl. cbn [peek hd].
  change (Ascii.eqb LF "\"%char) with false. cbv iota.
  unfold step_bol. st_simpl. cbn [peek hd].
  change (Ascii.eqb LF LF) with true. cbv iota.
  unfold bol_blank. rewrite (do_flush_some _ fl) by exact Hfl. st_simpl.
  destruct (stk_list_p sk =? 0)%Z.
  - unfold do_roff. st_simpl.
    rewrite roff_plain by (reflexivity || discriminate). st_simpl.
    rewrite (advance_1 _ LF rest) by reflexivity. st_simpl.
    now rewrite <- !app_assoc.
  - unfold do_roff. st_simpl.
    rewrite (roff_plain mpack li_end) by (reflexivity || discriminate).
    st_simpl.
    rewrite (roff_plain mpack lst_close) by (reflexivity || discriminate).
    st_simpl.
    rewrite (roff_plain mpack par_end) by (reflexivity || discriminate).
    st_simpl.
    rewrite (advance_1 _ LF rest) by reflexivity. st_simpl.
    now rewrite <- !app_assoc.
Qed.

Lemma blank_line_ends_paragraph_and_list_witness :
  step mp_mdoc (mkState [LF] (unlines [""; "x"]) (lit "b ") true false false
                        false (mkStack (ul :: repeat none 31)
                                       (1%Z :: repeat 0%Z 31) 1) [])
  = Running
      (mkState [LF; LF] (unlines ["x"]) [] true false false false
         (mkStack (ul :: repeat none 31) (1%Z :: repeat 0%Z 31) 0)
         ([] ++ unlines ["b"]
          ++ (roff_text mp_mdoc li_end ++ roff_text mp_mdoc lst_close)
          ++ roff_text mp_mdoc par_end)).
Proof.
  exact (blank_line_ends_paragraph_and_list mp_mdoc
           (mkState [LF] (unlines [""; "x"]) (lit "b ") true false false false
                    (mkStack (ul :: repeat none 31) (1%Z :: repeat 0%Z 31) 1)
                    [])
           (unlines ["x"]) (unlines ["b"]) eq_refl eq_refl eq_refl eq_refl).
Defined.

Lemma bullet_plain b :
  is_bullet b = true ->
  Ascii.eqb b "\"%char = false /\ Ascii.eqb b LF = false
  /\ is_hash b = false.
Proof.
  unfold is_bullet. intros H.
  apply orb_true_iff in H. destruct H as [H|H];
    [apply orb_true_iff in H; destruct H as [H|H]|];
    apply Ascii.eqb_eq in H; subst b; repeat split.
Qed.

Lemma roff_li_open_other mpack s :
  mpack <> mp_man ->
  roff mpack li_open [] s = Some (s, roff_text mpack li_open).
Proof. destruct mpack; try reflexivity. congruence. Qed.

Lemma roff_ul_open_first mpack l c :
  roff mpack ul_open [] (mkStack l c 0)
  = Some (mkStack (upd 0 ul l) (upd 0 1%Z c) 1, roff_text mpack ul_open).
Proof. destruct mpack; reflexivity. Qed.

(** X16.  Outside the man dialect, a bullet followed by a blank at the
    beginning of a line flushes the buffer; with no list open it opens an
    unordered list in slot 0 and an item, with a list open it ends the item
    before and opens the next, and the stack is unchanged.  The blank is
    left for the in-line part. *)
Theorem bullet_opens_or_continues_list (mpack : macropackage_t) (st : state)
    (b w : ascii) (rest fl : text) :
  mpack <> mp_man ->
  bcode st = false -> bline st = true ->
  p st = b :: w :: rest -> is_bullet b = true -> isblank w = true ->
  flushln (d st) = Some fl ->
  (stk_list_p (stk st) = 0%Z ->
   step mpack st
   = Running
       (mkState (b :: back st) (w :: rest) [] false false (bold st)
          (italics st)
          (mkStack (upd 0 ul (stk_list (stk st)))
                   (upd 0 1%Z (stk_count (stk st))) 1)
          (out st ++ fl ++ roff_text mpack ul_open
           ++ roff_text mpack li_open)))
  /\ (stk_list_p (stk st) <> 0%Z ->
      step mpack st
      = Running
          (mkState (b :: back st) (w :: rest) [] false false (bold st)
             (italics st) (stk st)
             (out st ++ fl ++ roff_text mpack li_end
              ++ roff_text mpack li_open))).
Proof.
  intros Hm Hcode Hline Hp Hb Hw Hfl.
  destruct (bullet_plain b Hb) as (E1 & E2 & E3).
  destruct st as [bk p0 d0 bl bc bo it [l c sp0] o].
  cbn [p d bcode bline back bold italics stk out stk_list stk_count
       stk_list_p] in *.
  subst p0 bc bl.
  assert (Hs : forall sk,
    step mpack (mkState bk (b :: w :: rest) d0 true false bo it sk o)
    = continue (bol_ul mpack
                  (mkState bk (b :: w :: rest) d0 false false bo it sk o))).
  { intros sk. unfold step. st_simpl. cbn [peek hd]. rewrite E1.
    unfold step_bol. st_simpl. cbn [peek hd tl]. now rewrite E2, E3, Hw, Hb. }
  rewrite Hs. clear Hs. unfold bol_ul.
  rewrite (do_flush_some _ fl) by exact Hfl. st_simpl.
  split.
  - intros ->. cbn [stk_list_p]. change (0 =? 0)%Z with true. cbv iota.
    unfold do_roff. st_simpl. rewrite roff_ul_open_first. st_simpl.
    rewrite roff_li_open_other by exact Hm. st_simpl.
    rewrite (advance_1 _ b (w :: rest)) by reflexivity. st_simpl.
    now rewrite <- !app_assoc.
  - intros Hne. cbn [stk_list_p].
    destruct (Z.eqb_spec sp0 0) as [E|_]; [congruence|].
    unfold do_roff. st_simpl.
    rewrite (roff_plain mpack li_end) by (reflexivity || discriminate).
    st_simpl. rewrite roff_li_open_other by exact Hm. st_simpl.
    rewrite (advance_1 _ b (w :: rest)) by reflexivity. st_simpl.
    now rewrite <- !app_assoc.
Qed.

Lemma bullet_opens_or_continues_list_witness :
  step mp_mm (mkState [] (unlines ["- a"]) [] true false false false stack0 [])
  = Running
      (mkState (lit "-") (SP :: unlines ["a"]) [] false false false false
         (mkStack (upd 0 ul (stk_list stack0)) (upd 0 1%Z (stk_count stack0)) 1)
         ([] ++ [] ++ roff_text mp_mm ul_open ++ roff_text mp_mm li_open)).
Proof.
  refine (proj1 (bullet_opens_or_continues_list mp_mm
                   (mkState [] (unlines ["- a"]) [] true false false false
                            stack0 [])
                   "-"%char SP (unlines ["a"]) [] _ eq_refl eq_refl eq_refl
                   eq_refl eq_refl eq_refl) eq_refl).
  discriminate.
Defined.

(** X17.  A run of at most 15 digits that no dot follows is ordinary
    text: its first digit goes to the buffer, no list is opened and nothing
    is written. *)
Theorem digits_without_dot_are_text (mpack : macropackage_t) (st : state)
    (c : ascii) (num rest : text) :
  bcode st = false ->
  p st = c :: num ++ rest ->
  isdigit c = true -> forallb isdigit num = true ->
  (length (c :: num) <= 15)%nat ->
  isdigit (peek rest) = false -> Ascii.eqb (peek rest) "."%char = false ->
  (Z.of_nat (length (d st)) < DEST_SIZE)%Z ->
  step mpack st
  = Running (mkState (c :: back st) (num ++ rest) (d st ++ [c]) false false
                     (bold st) (italics st) (stk st) (out st)).
Proof.
  intros Hcode Hp Hc Hnum Hlen Hnd Hdot Hroom.
  destruct (isdigit_plain c Hc) as (E1 & E2 & E3 & E4 & E5).
  assert (G : forall x, isdigit x = false -> Ascii.eqb c x = false).
  { intros x Hx. destruct (Ascii.eqb c x) eqn:E; [|reflexivity].
    apply Ascii.eqb_eq in E. congruence. }
  destruct st as [bk p0 d0 bl bc bo it sk o].
  cbn [p d bcode bline back bold italics stk out] in *. subst p0 bc.
  assert (Hin : forall b0,
    step_inline mpack (mkState bk (c :: num ++ rest) d0 b0 false bo it sk o)
    = Running (mkState (c :: bk) (num ++ rest) (d0 ++ [c]) b0 false bo it
                       sk o)).
  { intros b0. unfold step_inline. st_simpl. rewrite E2.
    unfold is_star. rewrite !G by reflexivity. cbn [orb andb]. cbv iota.
    unfold do_put. st_simpl. rewrite dput_room by (simpl length; lia).
    st_simpl. now rewrite (advance_1 _ c (num ++ rest)) by reflexivity. }
  unfold step. st_simpl. cbn [peek hd]. rewrite E1.
  destruct bl; [|apply Hin].
  unfold step_bol. st_simpl. cbn [peek hd tl].
  rewrite E2, E3, E4, andb_false_r, Hc. unfold bol_ol. st_simpl.
  change (c :: num ++ rest) with ((c :: num) ++ rest).
  rewrite take_while_run, skip_while_run by (simpl; rewrite ?Hc; auto).
  destruct (Nat.ltb_spec 15 (length (c :: num))) as [G1|_]; [lia|].
  rewrite Hdot. apply Hin.
Qed.

Lemma digits_without_dot_are_text_witness :
  step mp_man (mkState [] (lit "42 is") [] true false false false stack0 [])
  = Running (mkState (lit "4") (lit "2" ++ lit " is") ([] ++ ["4"%char])
                     false false false false stack0 []).
Proof.
  exact (digits_without_dot_are_text mp_man
           (mkState [] (lit "42 is") [] true false false false stack0 [])
           "4"%char (lit "2") (lit " is") eq_refl eq_refl eq_refl eq_refl
           ltac:(simpl; lia) eq_refl eq_refl eq_refl).
Defined.

(** X18.  In the middle of a line, a newline that no ruler follows puts
    one space in the buffer and makes the next character the beginning of
    a line: the lines of a paragraph are joined. *)
Theorem newline_joins_lines (mpack : macropackage_t) (st : state)
    (r : text) :
  bcode st = false -> bline st = false ->
  p st = LF :: r -> is_rule r = false ->
  (Z.of_nat (length (d st)) < DEST_SIZE)%Z ->
  step mpack st
  = Running (mkState (LF :: back st) r (d st ++ [SP]) true false (bold st)
                     (italics st) (stk st) (out st)).
Proof.
  intros Hcode Hline Hp Hrule Hroom.
  destruct st as [bk p0 d0 bl bc bo it sk o].
  cbn [p d bcode bline back bold italics stk out] in *. subst p0 bc bl.
  unfold step. st_simpl. cbn [peek hd].
  change (Ascii.eqb LF "\"%char) with false. cbv iota.
  unfold step_inline. st_simpl.
  change (Ascii.eqb LF LF) with true. cbv iota. rewrite Hrule.
  unfold do_put. st_simpl. rewrite dput_room by (simpl length; lia).
  st_simpl. now rewrite (advance_1 _ LF r) by reflexivity.
Qed.

Lemma newline_joins_lines_witness :
  step mp_man (mkState (lit "a") (unlines [""; "b"]) (lit "a") false false
                       false false stack0 [])
  = Running (mkState (LF :: lit "a") (unlines ["b"]) (lit "a" ++ [SP]) true
                     false false false stack0 []).
Proof.
  exact (newline_joins_lines mp_man
           (mkState (lit "a") (unlines [""; "b"]) (lit "a") false false false
                    false stack0 [])
           (unlines ["b"]) eq_refl eq_refl eq_refl eq_refl eq_refl).
Defined.

(** * Headers at the end and in a row *)

(** A header of level 1 to 3: the section, the title, and then the in-line
    part at the first character of the next line. *)
Lemma header_low_step mpack st n blanks title rest fl :
  bcode st = false -> bline st = true ->
  p st = repeat "#"%char n ++ blanks ++ title ++ LF :: rest ->
  (1 <= n <= 3)%nat ->
  forallb isblank blanks = true ->
  is_hash (peek (blanks ++ title ++ [LF])) = false ->
  isblank (peek (title ++ [LF])) = false ->
  ~ In LF title ->
  is_hash (last (repeat "#"%char n ++ blanks ++ title) NUL) = false ->
  flushln (d st) = Some fl ->
  step mpack st
  = step_inline mpack
      (mkState (rev (repeat "#"%char n ++ blanks ++ title ++ [LF]) ++ back st)
               rest [] false false (bold st) (italics st) (stk st)
               (out st ++ fl
                ++ roff_text mpack (if (n <=? 2)%nat then new_sh else new_ss)
                ++ title ++ [LF])).
Proof.
  intros Hcode Hline Hp Hn Hbl Hnh Hnb Hnl Hlast Hfl.
  destruct st as [bk p0 d0 bl bc bo it sk o].
  cbn [p] in Hp. cbn [bcode] in Hcode. cbn [bline] in Hline.
  cbn [d] in Hfl. subst bc bl. st_simpl.
  set (hs := repeat "#"%char n) in *.
  assert (Hq : exists q, p0 = "#"%char :: q).
  { subst p0 hs. destruct n as [|m]; [lia|]. simpl. eauto. }
  destruct Hq as [q Hq].
  assert (Hnext : is_hash (peek (blanks ++ title ++ LF :: rest)) = false).
  { destruct blanks; [|exact Hnh]. simpl in Hnh. simpl.
    destruct title; exact Hnh. }
  assert (Hsplit : split_at LF p0 = Some (hs ++ blanks ++ title, rest)).
  { subst p0. rewrite !app_assoc. rewrite <- (app_assoc hs).
    apply split_at_intro. intros Hin.
    apply in_app_or in Hin. destruct Hin as [Hin|Hin].
    - revert Hin. apply (forallb_not_In is_hash); [apply hashes_all|reflexivity].
    - apply in_app_or in Hin. destruct Hin as [Hin|Hin]; [|tauto].
      revert Hin. now apply (forallb_not_In isblank). }
  assert (Hlevel : length (take_while is_hash p0) = n).
  { subst p0. rewrite take_while_run by (apply hashes_all || exact Hnext).
    apply repeat_length. }
  assert (Hskip : skip_while isblank (skip_while is_hash p0)
                  = title ++ LF :: rest).
  { subst p0. rewrite skip_while_run by (apply hashes_all || exact Hnext).
    apply skip_while_run; [exact Hbl|].
    destruct title; [reflexivity|exact Hnb]. }
  assert (Hbol : step mpack (mkState bk p0 d0 true false bo it sk o)
                 = match bol_header mpack
                           (mkState bk p0 d0 false false bo it sk o) with
                   | Done o' => o'
                   | Fall st' => step_inline mpack st'
                   end).
  { unfold step. st_simpl. rewrite Hq. cbn [peek hd].
    change (Ascii.eqb "#"%char "\"%char) with false. cbv iota.
    unfold step_bol. st_simpl. cbn [peek hd].
    change (Ascii.eqb "#"%char LF) with false.
    change (is_hash "#"%char) with true. reflexivity. }
  rewrite Hbol. clear Hbol. unfold bol_header.
  rewrite (do_flush_some _ fl) by exact Hfl. st_simpl.
  rewrite Hsplit, Hlast. cbn [negb]. cbv iota. rewrite Hlevel, Hskip.
  clear Hlevel Hskip Hsplit.
  rewrite (move_to_app _ (hs ++ blanks) (title ++ LF :: rest))
    by (st_simpl; subst p0; now rewrite <- app_assoc).
  st_simpl.
  assert (Hprint : forall b' oo,
    do_println (mkState b' (title ++ LF :: rest) [] false false bo it sk oo)
    = mkState (rev (title ++ [LF]) ++ b') rest [] false false bo it sk
              (oo ++ title ++ [LF])).
  { intros b' oo. unfold do_println. st_simpl.
    rewrite println_line by assumption. st_simpl.
    rewrite (move_to_app _ (title ++ [LF]) rest); [reflexivity|].
    st_simpl. now rewrite <- app_assoc. }
  assert (Hback : rev (title ++ [LF]) ++ rev (hs ++ blanks) ++ bk
                  = rev (hs ++ blanks ++ title ++ [LF]) ++ bk).
  { rewrite app_assoc, <- rev_app_distr. now rewrite <- !app_assoc. }
  destruct n as [|[|[|[|m]]]]; try lia; cbn [Nat.leb]; cbv iota;
    unfold do_roff; st_simpl;
    rewrite ?roff_new_sh, ?roff_new_ss; st_simpl;
    rewrite Hprint, Hback; now rewrite <- !app_assoc.
Qed.

(** X19.  A header of level 1, 2 or 3 on the last line of the source
    makes the loop read past the terminator: after the title is written
    control falls into the in-line part at the terminator, which is stored
    in the buffer and stepped over. *)
Theorem header_on_last_line_is_undefined (mpack : macropackage_t)
    (st : state) (n : nat) (blanks title fl : text) :
  bcode st = false -> bline st = true ->
  p st = repeat "#"%char n ++ blanks ++ title ++ [LF] ->
  (1 <= n <= 3)%nat ->
  forallb isblank blanks = true ->
  is_hash (peek (blanks ++ title ++ [LF])) = false ->
  isblank (peek (title ++ [LF])) = false ->
  ~ In LF title ->
  is_hash (last (repeat "#"%char n ++ blanks ++ title) NUL) = false ->
  flushln (d st) = Some fl ->
  step mpack st = Undefined.
Proof.
  intros Hcode Hline Hp Hn Hbl Hnh Hnb Hnl Hlast Hfl.
  now rewrite (header_low_step mpack st n blanks title [] fl).
Qed.

Lemma header_on_last_line_is_undefined_witness :
  step mp_mm (mkState [LF] (unlines ["# Title"]) [] true false false false
                      stack0 [])
  = Undefined.
Proof.
  apply (header_on_last_line_is_undefined mp_mm _ 1 [SP] (lit "Title") []);
    try reflexivity.
  - lia.
  - vm_compute. intros H. repeat (destruct H as [H|H]; [discriminate H|]).
    exact H.
Defined.

(** X20.  A header line directly after a header line of level 1, 2 or 3
    is not a header: in the same iteration its first hash goes to the
    buffer as text through the in-line part, where the line start is
    over. *)
Theorem header_after_header_is_text (mpack : macropackage_t) (st : state)
    (n : nat) (blanks title rest fl : text) :
  bcode st = false -> bline st = true ->
  p st = repeat "#"%char n ++ blanks ++ title ++ LF :: "#"%char :: rest ->
  (1 <= n <= 3)%nat ->
  forallb isblank blanks = true ->
  is_hash (peek (blanks ++ title ++ [LF])) = false ->
  isblank (peek (title ++ [LF])) = false ->
  ~ In LF title ->
  is_hash (last (repeat "#"%char n ++ blanks ++ title) NUL) = false ->
  flushln (d st) = Some fl ->
  step mpack st
  = Running
      (mkState ("#"%char
                :: rev (repeat "#"%char n ++ blanks ++ title ++ [LF])
                ++ back st)
               rest ["#"%char] false false (bold st) (italics st) (stk st)
               (out st ++ fl
                ++ roff_text mpack (if (n <=? 2)%nat then new_sh else new_ss)
                ++ title ++ [LF])).
Proof.
  intros Hcode Hline Hp Hn Hbl Hnh Hnb Hnl Hlast Hfl.
  rewrite (header_low_step mpack st n blanks title ("#"%char :: rest) fl)
    by assumption.
  unfold step_inline. st_simpl.
  change (Ascii.eqb "#"%char LF) with false.
  change (is_star "#"%char) with false.
  change (Ascii.eqb "#"%char "`"%char) with false.
  change (Ascii.eqb "#"%char "["%char) with false.
  change (Ascii.eqb "#"%char "!"%char) with false.
  cbn [andb orb]. cbv iota. unfold do_put. st_simpl.
  change (dput [] ["#"%char]) with (Some ["#"%char]). st_simpl.
  now rewrite (advance_1 _ "#"%char rest) by reflexivity.
Qed.

Lemma header_after_header_is_text_witness :
  step mp_mm (mkState [LF] (unlines ["# A"; "# B"]) [] true false false false
                      stack0 [])
  = Running
      (mkState ("#"%char :: rev (repeat "#"%char 1 ++ [SP] ++ lit "A" ++ [LF])
                ++ [LF])
               (lit " B" ++ [LF]) ["#"%char] false false false false stack0
               ([] ++ [] ++ roff_text mp_mm new_sh ++ lit "A" ++ [LF])).
Proof.
  apply (header_after_header_is_text mp_mm
           (mkState [LF] (unlines ["# A"; "# B"]) [] true false false false
                    stack0 [])
           1 [SP] (lit "A") (lit " B" ++ [LF]) []);
    try reflexivity.
  - lia.
  - vm_compute. intros H. repeat (destruct H as [H|H]; [discriminate H|]).
    exact H.
Defined.

(** * Long runs of digits *)

Lemma take_while_app_length f a rest :
  forallb f a = true -> (length a <= length (take_while f (a ++ rest)))%nat.
Proof.
  induction a as [|x a IH]; simpl; intros H; [lia|].
  apply andb_true_iff in H. destruct H as [Hx Ha]. rewrite Hx. simpl.
  apply IH in Ha. lia.
Qed.

(** X21.  At the beginning of a line, a run of 16 digits or more
    overflows the 16 bytes of [num], whatever follows the digits. *)
Theorem sixteen_digits_overflow_num (mpack : macropackage_t) (st : state)
    (num rest : text) :
  bcode st = false -> bline st = true ->
  p st = num ++ rest ->
  forallb isdigit num = true -> (16 <= length num)%nat ->
  step mpack st = Undefined.
Proof.
  intros Hcode Hline Hp Hnum Hlen.
  destruct num as [|c num']; [simpl in Hlen; lia|].
  assert (Hc : isdigit c = true)
    by (simpl in Hnum; now apply andb_true_iff in Hnum).
  destruct (isdigit_plain c Hc) as (E1 & E2 & E3 & E4 & _).
  pose proof (take_while_app_length isdigit (c :: num') rest Hnum) as L.
  unfold step. rewrite Hcode, Hp, Hline. cbn [app peek hd]. rewrite E1.
  unfold step_bol. cbn [with_bline p]. rewrite Hp. cbn [app peek hd tl].
  rewrite E2, E3, E4, andb_false_r, Hc. unfold bol_ol. cbn [with_bline p].
  rewrite Hp.
  destruct (Nat.ltb_spec 15 (length (take_while isdigit
                                       ((c :: num') ++ rest)))) as [_|G];
    [reflexivity|lia].
Qed.

Lemma sixteen_digits_overflow_num_witness :
  step mp_man (mkState [] (lit "1234567890123456. x") [] true false false
                       false stack0 [])
  = Undefined.
Proof.
  apply (sixteen_digits_overflow_num mp_man _ (lit "1234567890123456")
           (lit ". x")); try reflexivity; simpl; lia.
Defined.

(** * Plain text *)

Lemma plain_cases c :
  plain c = true ->
  Ascii.eqb c "\"%char = false /\ Ascii.eqb c LF = false
  /\ is_star c = false /\ Ascii.eqb c "`"%char = false
  /\ Ascii.eqb c "["%char = false.
Proof.
  unfold plain. intros H. apply negb_true_iff in H.
  repeat (apply orb_false_iff in H; destruct H as [H ?]). auto.
Qed.

Lemma plain_peek t : forallb plain t = true -> plain (peek t) = true.
Proof.
  destruct t as [|c r]; [reflexivity|]. simpl. intros H.
  now apply andb_true_iff in H.
Qed.

(** A plain character goes to the buffer. *)
Lemma plain_step mpack st c r :
  bcode st = false -> p st = c :: r ->
  plain c = true -> plain (peek r) = true ->
  (bline st = true -> bol_plain c = true) ->
  (Z.of_nat (length (d st)) < DEST_SIZE)%Z ->
  step mpack st
  = Running (mkState (c :: back st) r (d st ++ [c]) false false (bold st)
                     (italics st) (stk st) (out st)).
Proof.
  intros Hcode Hp Hc Hr Hb Hroom.
  destruct (plain_cases c Hc) as (E1 & E2 & E3 & E4 & E5).
  destruct (plain_cases _ Hr) as (_ & _ & _ & _ & F5).
  assert (Hin : step mpack st = step_inline mpack (with_bline st false)).
  { unfold step. rewrite Hcode, Hp. cbn [peek hd]. rewrite E1.
    destruct (bline st) eqn:Hl.
    - specialize (Hb eq_refl). unfold bol_plain in Hb.
      apply andb_true_iff in Hb. destruct Hb as [Hb B4].
      apply andb_true_iff in Hb. destruct Hb as [Hb B3].
      apply andb_true_iff in Hb. destruct Hb as [_ B2].
      apply negb_true_iff in B2, B3, B4.
      unfold step_bol. cbn [with_bline p]. rewrite Hp.
      cbn [peek hd tl]. fold (peek r).
      rewrite E2, B2, B4, andb_false_r, B3.
      unfold fence. cbn [lit String.list_ascii_of_string prefixb].
      now rewrite Ascii.eqb_sym, E4.
    - rewrite <- Hl. now rewrite with_bline_same. }
  rewrite Hin. destruct st as [bk p0 d0 bl bc bo it sk o].
  cbn [p] in Hp. cbn [bcode] in Hcode. cbn [d] in Hroom. subst bc p0.
  unfold step_inline. st_simpl.
  rewrite E2, E3, E4, E5, F5, andb_false_r. cbn [andb orb]. cbv iota.
  unfold do_put. st_simpl.
  rewrite dput_room by (cbn [length]; lia). st_simpl.
  now rewrite (advance_1 _ c r) by reflexivity.
Qed.

Lemma flushln_room buf fl :
  flushln buf = Some fl -> (Z.of_nat (length buf) < DEST_SIZE)%Z.
Proof.
  unfold flushln. destruct buf as [|c r]; [intros _; cbn; reflexivity|].
  destruct (Z.ltb_spec (Z.of_nat (length (c :: r))) DEST_SIZE);
    [lia|discriminate].
Qed.

(** X24.  A text without newline, backslash, star, underscore, backtick
    and opening bracket, whose first character opens no block when it is at
    the beginning of a line, goes to the buffer character by character and
    leaves the loop; the flush at the end writes the buffer with the text
    as one squeezed line. *)
Theorem plain_text_is_one_paragraph (mpack : macropackage_t) (t : text) :
  forall (st : state) (fl : text) (fuel : nat),
  bcode st = false -> p st = t ->
  forallb plain t = true ->
  (bline st = true -> bol_plain (peek t) = true) ->
  flushln (d st ++ t) = Some fl ->
  (length t < fuel)%nat ->
  run mpack fuel st = Some (Returned (out st ++ fl)).
Proof.
  induction t as [|c r IH]; intros st fl fuel Hcode Hp Hpl Hb Hfl Hfuel.
  - destruct fuel as [|f]; [lia|]. cbn [run]. rewrite Hp.
    rewrite app_nil_r in Hfl. rewrite (do_flush_some _ fl) by exact Hfl.
    destruct st. reflexivity.
  - destruct fuel as [|f]; [simpl in Hfuel; lia|]. cbn [run]. rewrite Hp.
    cbn [forallb] in Hpl. apply andb_true_iff in Hpl.
    destruct Hpl as [Hc Hr].
    pose proof (flushln_room _ _ Hfl) as Hroom.
    rewrite length_app in Hroom. cbn [length] in Hroom.
    rewrite (plain_step mpack st c r); try assumption;
      [|now apply plain_peek|lia].
    rewrite (IH _ fl f); try reflexivity; try assumption.
    + discriminate.
    + cbn [d]. now rewrite <- app_assoc.
    + simpl in Hfuel. lia.
Qed.

Lemma plain_text_is_one_paragraph_witness :
  run mp_man 12 (mkState [] (lit "Hello  you!") [] true false false false
                         stack0 (lit ".PP" ++ [LF]))
  = Some (Returned (lit ".PP" ++ [LF] ++ lit "Hello you!" ++ [LF])).
Proof.
  apply (plain_text_is_one_paragraph mp_man (lit "Hello  you!")
           (mkState [] (lit "Hello  you!") [] true false false false stack0
                    (lit ".PP" ++ [LF]))
           (lit "Hello you!" ++ [LF]) 12); try reflexivity.
  simpl. lia.
Defined.

(** * Whole runs *)

Lemma run_not_running mpack fuel : forall st o st',
  run mpack fuel st = Some o -> o <> Running st'.
Proof.
  induction fuel as [|f IH]; intros st o st' H; [discriminate|].
  cbn [run] in H. destruct (p st) as [|c r].
  - injection H as <-. now destruct (do_flush st).
  - destruct (step mpack st) as [st1| | |] eqn:Es.
    + now apply (IH st1).
    + injection H as <-. discriminate.
    + injection H as <-. discriminate.
    + injection H as <-. discriminate.
Qed.

(** X22.  For a source that is empty up to its terminator, [md2roff]
    returns after the preamble of the dialect: the comment line, the macro
    package, and the title line of today for man and mdoc or the document
    set-up for mom. *)
Theorem empty_document_gives_preamble (mpack : macropackage_t)
    (globals : lstack) (now : tm) (docname source : text) :
  cstr source = [] ->
  md2roff mpack globals now docname source
  = Some (Returned (plain_preamble mpack (cstr docname) now)).
Proof.
  intros H. unfold md2roff, entry. rewrite H.
  assert (E : forall st, p st = [] -> d st = [] ->
              run mpack (S (length (p st))) st = Some (Returned (out st))).
  { intros [bk p0 d0 bl bc bo it sk o] Hp Hd. cbn [p d] in Hp, Hd.
    subst p0 d0. cbn [run p length]. unfold do_flush. st_simpl.
    change (flushln []) with (Some (@nil ascii)). st_simpl.
    now rewrite app_nil_r. }
  rewrite E by (destruct mpack; reflexivity).
  destruct mpack; unfold plain_preamble, preamble; st_simpl;
    cbn [is_man peek hd is_hash andb Ascii.eqb Bool.eqb app];
    st_simpl; cbn [app]; repeat rewrite <- app_assoc; reflexivity.
Qed.

Lemma empty_document_gives_preamble_witness :
  md2roff mp_man stack0 today (lit "guide") []
  = Some (Returned (plain_preamble mp_man (cstr (lit "guide")) today)).
Proof.
  apply (empty_document_gives_preamble mp_man stack0 today (lit "guide") []).
  reflexivity.
Defined.

(** X23.  [md2roff] ends on every source: the run is a return, an exit or
    undefined behaviour, within as many iterations as the source has
    characters, and what is on the standard output by then starts with the
    preamble. *)
Theorem md2roff_ends (mpack : macropackage_t) (globals : lstack) (now : tm)
    (docname source : text) :
  exists o,
    md2roff mpack globals now docname source = Some o
    /\ (forall st, o <> Running st)
    /\ (forall t, stdout_of o = Some t ->
        ext (out (preamble mpack (cstr docname) now (entry globals source)))
            t).
Proof.
  destruct (md2roff_total mpack globals now docname source) as [o Ho].
  exists o. split; [exact Ho|]. split.
  - intros st. exact (run_not_running _ _ _ _ st Ho).
  - intros t Ht. exact (run_stdout _ _ _ _ _ Ho Ht).
Qed.
